(** * The wallet hook [useWallet] and the card's [formatAddress]

    A shallow embedding of the TypeScript sources of the repository:
    - the hook [useWallet] (session record, [getBalance],
      [updateWalletState], [connect], [disconnect], [switchNetwork], the
      auto-reconnect effect and the provider event handlers);
    - [formatAddress] of [src/components/WalletCard.tsx].

    JavaScript strings are modelled by [string]: sequences of code units
    below 256.  JavaScript numbers are IEEE 754 binary64 values, modelled
    by [spec_float] at precision 53 and maximal exponent 1024.
    [localStorage] is a finite map of strings that may be full:
    [setItem] then throws, unless the key holds the value already. *)

From Stdlib Require Import ZArith QArith Qround Qabs Lia Lqa Bool.
From Stdlib Require Import Ascii String DecimalString DecimalN.
From Stdlib Require Import SpecFloat.
From stdpp Require Import gmap strings list fin_maps.

#[local] Open Scope Z_scope.

(* ===================================================================== *)
(** * JavaScript strings *)
(* ===================================================================== *)

Module JsString.

(** [s.length] *)
Definition length (s : string) : Z := Z.of_nat (String.length s).

(** The clamping of an index argument of [substring] to [0 .. len]. *)
Definition clamp (len i : Z) : Z := Z.min (Z.max i 0) len.

(** [s.substring(start, end)]: both indices are clamped to the length
    of the string and swapped when they come in the wrong order; an
    omitted [end] is the length. *)
Definition substring (s : string) (start : Z) (end_ : option Z) : string :=
  let len := length s in
  let intStart := clamp len start in
  let intEnd := match end_ with Some e => clamp len e | None => len end in
  let from := Z.min intStart intEnd in
  let to := Z.max intStart intEnd in
  String.substring (Z.to_nat from) (Z.to_nat (to - from)) s.

(** Truthiness of a string: only the empty string is falsy. *)
Definition truthy (s : string) : bool :=
  match s with EmptyString => false | String _ _ => true end.

(** The decimal digits of a natural number, ["0"] for zero. *)
Definition of_N (n : N) : string := NilZero.string_of_uint (N.to_uint n).

(** [n] copies of a character. *)
Fixpoint repeat (c : ascii) (n : nat) : string :=
  match n with
  | O => EmptyString
  | S n' => String c (repeat c n')
  end.

(** The first [n] code units and what follows them. *)
Fixpoint take (n : nat) (s : string) : string :=
  match n, s with
  | S n', String c s' => String c (take n' s')
  | _, _ => EmptyString
  end.

Fixpoint drop (n : nat) (s : string) : string :=
  match n, s with
  | S n', String _ s' => drop n' s'
  | _, _ => s
  end.

(** The characters ["0"] to ["9"]. *)
Definition is_digit (c : ascii) : bool :=
  let n := N_of_ascii c in ((48 <=? n) && (n <=? 57))%N.

Fixpoint all_digits (s : string) : bool :=
  match s with
  | EmptyString => true
  | String c s' => is_digit c && all_digits s'
  end.

(** The natural number a string of decimal digits denotes, [None] for
    the empty string and for a string with another character. *)
Definition to_N (s : string) : option N :=
  option_map N.of_uint (NilZero.uint_of_string s).

Fixpoint skip_digits (s : string) : string :=
  match s with
  | String c s' => if is_digit c then skip_digits s' else s
  | EmptyString => s
  end.

(** Fixed-point notation with [f] decimal places: an optional ["-"], at
    least one digit, a point, exactly [f] digits. *)
Definition is_fixed (f : nat) (s : string) : bool :=
  let unsigned := match s with String "-" s' => s' | _ => s end in
  match unsigned with String c _ => is_digit c | EmptyString => false end &&
  match skip_digits unsigned with
  | String "." fraction => all_digits fraction && (String.length fraction =? f)%nat
  | _ => false
  end.

End JsString.

(* ===================================================================== *)
(** * JavaScript numbers *)
(* ===================================================================== *)

Module Number.

Definition prec : Z := 53.
Definition emax : Z := 1024.

(** A Number value. *)
Definition number : Type := spec_float.

(** The Number value of a mathematical integer: round to nearest, ties
    to even, infinite on overflow. *)
Definition of_Z (z : Z) : number := binary_normalize prec emax z 0 false.

(** [x / y] *)
Definition div (x y : number) : number := SFdiv prec emax x y.

(** The literal [1e18]. *)
Definition lit_1e18 : number := of_Z (10 ^ 18).

(** The mathematical value of a finite Number with mantissa [m] and
    exponent [e]: [m * 2^e]. *)
Definition magnitude (m : positive) (e : Z) : Q :=
  match e with
  | Z0 => inject_Z (Zpos m)
  | Zpos p => inject_Z (Zpos m * 2 ^ Zpos p)
  | Zneg p => Qmake (Zpos m) (2 ^ p)%positive
  end.

(** The mathematical value of a Number, [None] for the infinities and
    NaN. *)
Definition real (x : number) : option Q :=
  match x with
  | S754_zero _ => Some 0%Q
  | S754_finite s m e => Some (if s then (- magnitude m e)%Q else magnitude m e)
  | S754_infinity _ | S754_nan => None
  end.

(** ** [parseInt(string, 16)] *)

(** White space that [parseInt] skips, among the code units below 256:
    TAB, LF, VT, FF, CR, SP and NBSP. *)
Definition is_white_space (c : ascii) : bool :=
  let n := N_of_ascii c in
  ((9 <=? n) && (n <=? 13) || (n =? 32) || (n =? 160))%N.

Fixpoint trim_start (s : string) : string :=
  match s with
  | String c s' => if is_white_space c then trim_start s' else s
  | EmptyString => s
  end.

(** The value of a hexadecimal digit. *)
Definition hex_digit (c : ascii) : option Z :=
  let n := Z.of_N (N_of_ascii c) in
  if (48 <=? n) && (n <=? 57) then Some (n - 48)
  else if (97 <=? n) && (n <=? 102) then Some (n - 87)
  else if (65 <=? n) && (n <=? 70) then Some (n - 55)
  else None.

(** The value of the longest prefix of hexadecimal digits, [None] when
    that prefix is empty.  [acc] is the value of the digits read so far,
    [seen] whether there is one. *)
Fixpoint hex_prefix (s : string) (seen : bool) (acc : Z) : option Z :=
  match s with
  | EmptyString => if seen then Some acc else None
  | String c s' =>
      match hex_digit c with
      | Some d => hex_prefix s' true (16 * acc + d)
      | None => if seen then Some acc else None
      end
  end.

(** Removal of a leading ["0x"] or ["0X"]. *)
Definition strip_prefix (s : string) : string :=
  match s with
  | String "0" (String "x" s') => s'
  | String "0" (String "X" s') => s'
  | _ => s
  end.

(** The sign and the mathematical integer that [parseInt(string, 16)]
    reads: white space is skipped, then a sign, then ["0x"], and the
    longest run of hexadecimal digits is taken; [None] without a digit. *)
Definition mathInt16 (input : string) : option (bool * Z) :=
  let str := trim_start input in
  let '(sign, str) :=
    match str with
    | String "-" str' => (true, str')
    | String "+" str' => (false, str')
    | _ => (false, str)
    end in
  let str := strip_prefix str in
  match hex_prefix str false 0 with
  | None => None
  | Some mathInt => Some (sign, mathInt)
  end.

(** [parseInt(input, 16)]: NaN without a digit, a signed zero for zero,
    else the Number value of the signed integer. *)
Definition parseInt16 (input : string) : number :=
  match mathInt16 input with
  | None => S754_nan
  | Some (sign, 0) => S754_zero sign
  | Some (sign, mathInt) => of_Z (if sign then - mathInt else mathInt)
  end.

(** ** [Number::toString] for a finite value of at least [10^21]

    Such a value is an integer [X].  The result is written with the
    fewest digits [k] such that some [s] of [k] digits has [s * 10^(n-k)]
    of Number value [X]; among those, the one closest to [X]. *)

(** The number of decimal digits of a positive integer. *)
Definition decimal_length (X : Z) : Z := Z.of_nat (String.length (JsString.of_N (Z.to_N X))).

Definition represents (X : Z) (s k n : Z) : bool :=
  (10 ^ (k - 1) <=? s) && (s <? 10 ^ k) &&
  match of_Z (s * 10 ^ (n - k)), of_Z X with
  | S754_finite _ m1 e1, S754_finite _ m2 e2 => Pos.eqb m1 m2 && Z.eqb e1 e2
  | _, _ => false
  end.

(** The candidates with [k] digits: the two integers around
    [X / 10^(n-k)], for the two possible positions [n] of the point. *)
Definition candidates (X k : Z) : list (Z * Z) :=
  let N := decimal_length X in
  let around n := [ (X / 10 ^ (n - k), n) ; (X / 10 ^ (n - k) + 1, n) ] in
  List.filter (fun sn => represents X (fst sn) k (snd sn)) (around N ++ around (N + 1)).

Definition closest (X k : Z) (c1 c2 : Z * Z) : Z * Z :=
  let dist c := Z.abs (fst c * 10 ^ (snd c - k) - X) in
  if dist c2 <? dist c1 then c2 else c1.

Fixpoint shortest (X : Z) (k : Z) (fuel : nat) : option (Z * Z * Z) :=
  match fuel with
  | O => None
  | S fuel' =>
      match candidates X k with
      | c :: cs => let '(s, n) := fold_left (closest X k) cs c in Some (s, k, n)
      | [] => shortest X (k + 1) fuel'
      end
  end.

(** The exponential notation of [Number::toString], used from [n = 22]. *)
Definition exponential (s k n : Z) : string :=
  let digits := JsString.of_N (Z.to_N s) in
  let e := JsString.of_N (Z.to_N (n - 1)) in
  if k =? 1 then digits +:+ "e+" +:+ e
  else JsString.take 1 digits +:+ "." +:+ JsString.drop 1 digits +:+ "e+" +:+ e.

Definition toString_large (X : Z) : string :=
  match shortest X 1 17 with
  | Some (s, k, n) => exponential s k n
  | None => JsString.of_N (Z.to_N X)
  end.

(** ** [x.toFixed(f)] for [0 <= f <= 100] *)

(** The integer [n] for which [n / 10^f - x] is as close to zero as
    possible, the larger one when there are two ([x] is not negative). *)
Definition nearest_scaled (x : Q) (f : nat) : Z :=
  Qfloor (x * inject_Z (10 ^ Z.of_nat f) + (1 # 2)).

(** The digits of [n] with a point before the last [f] of them, after
    padding with zeros to [f + 1] digits. *)
Definition fixed_digits (n : Z) (f : nat) : string :=
  let m := JsString.of_N (Z.to_N n) in
  let k := String.length m in
  let m := if (k <=? f)%nat then JsString.repeat "0" (f + 1 - k) +:+ m else m in
  let k := String.length m in
  match f with
  | O => m
  | _ => JsString.take (k - f) m +:+ "." +:+ JsString.drop (k - f) m
  end.

Definition toFixed (x : number) (f : nat) : string :=
  match x with
  | S754_nan => "NaN"
  | S754_infinity false => "Infinity"
  | S754_infinity true => "-Infinity"
  | S754_zero _ => fixed_digits 0 f
  | S754_finite sx m e =>
      let s := if sx then "-" else "" in
      let x := magnitude m e in
      if Qle_bool (inject_Z (10 ^ 21)) x
      then s +:+ toString_large (Qfloor x)
      else s +:+ fixed_digits (nearest_scaled x f) f
  end.

End Number.

(* ===================================================================== *)
(** * The provider, the session record and the page *)
(* ===================================================================== *)

(** [EthereumRpcError]: what the hook reads of a thrown value is its
    [code], absent on a plain [Error]. *)
Record EthereumRpcError := { code : option Z }.

(** A settled promise. *)
Inductive Promise (A : Type) : Type :=
| Resolved (a : A)
| Rejected (e : EthereumRpcError).
Arguments Resolved {A} a.
Arguments Rejected {A} e.

(** [EthereumProvider]: [request] for each method the hook sends, at the
    response type the hook casts the result to ([EthAccountsResponse],
    [EthChainIdResponse], [EthGetBalanceResponse]).  An account list may be
    [null] (the hook tests [accounts &&]).  [eth_getBalance] is asked with
    [[address, 'latest']], [wallet_switchEthereumChain] with
    [[{ chainId }]]. *)
Record EthereumProvider := {
  isMetaMask : option bool;
  eth_requestAccounts : Promise (option (list string));
  eth_accounts : Promise (option (list string));
  eth_chainId : Promise string;
  eth_getBalance : string -> Promise string;
  wallet_switchEthereumChain : string -> Promise unit;
}.

(** [WalletState], with the fields of the initial value of the state
    cell; [None] is [null]. *)
Record WalletState := {
  address : option string;
  isConnected : bool;
  isConnecting : bool;
  error : option string;
  chainId : option string;
  balance : option string;
}.

(** The page: the state cell of the hook, [localStorage], whether
    [localStorage] is full (it then refuses to store a new value), and
    (for the invariants) every value the state cell held before, latest
    first. *)
Record World := {
  walletState : WalletState;
  localStorage : gmap string string;
  storageFull : bool;
  history : list WalletState;
}.

(** Every value the state cell has held. *)
Definition held (w : World) : list WalletState := walletState w :: history w.

(* ===================================================================== *)
(** * Asynchronous code with exceptions over the page *)
(* ===================================================================== *)

Module Async.

Inductive Completion (A : Type) : Type :=
| Normal (a : A)
| Throw (e : EthereumRpcError).
Arguments Normal {A} a.
Arguments Throw {A} e.

Definition t (A : Type) : Type := World -> Completion A * World.

Definition ret {A} (a : A) : t A := fun w => (Normal a, w).

Definition bind {A B} (c : t A) (k : A -> t B) : t B :=
  fun w =>
    match c w with
    | (Normal a, w') => k a w'
    | (Throw e, w') => (Throw e, w')
    end.

(** [throw new Error(...)]: an error without [code]. *)
Definition throw_Error {A} : t A := fun w => (Throw {| code := None |}, w).

(** [await p] *)
Definition await {A} (p : Promise A) : t A :=
  fun w =>
    match p with
    | Resolved a => (Normal a, w)
    | Rejected e => (Throw e, w)
    end.

(** [try { body } catch (error) { handler }] *)
Definition try_catch {A} (body : t A) (handler : EthereumRpcError -> t A) : t A :=
  fun w =>
    match body w with
    | (Normal a, w') => (Normal a, w')
    | (Throw e, w') => handler e w'
    end.

(** [setWalletState(prev => f prev)] *)
Definition setWalletState (f : WalletState -> WalletState) : t unit :=
  fun w =>
    (Normal tt,
     {| walletState := f (walletState w);
        localStorage := localStorage w;
        storageFull := storageFull w;
        history := walletState w :: history w |}).

(** The state of the render the running callback closes over. *)
Definition rendered : t WalletState := fun w => (Normal (walletState w), w).

(** [localStorage.getItem(key)], where the page may read its storage. *)
Definition getItem (key : string) : t (option string) :=
  fun w => (Normal (localStorage w !! key), w).

(** Whether [localStorage] holds [value] under [key]. *)
Definition holds (key value : string) (w : World) : bool :=
  match localStorage w !! key with
  | Some old => String.eqb old value
  | None => false
  end.

(** Whether [localStorage.setItem(key, value)] goes through: the key
    already holds that value, or there is room to store it. *)
Definition stores (key value : string) (w : World) : bool :=
  holds key value w || negb (storageFull w).

(** [localStorage.setItem(key, value)]: nothing to do when the key holds
    the value already; else a [QuotaExceededError] (a [DOMException], of
    code 22) when the value cannot be stored; else the value is stored. *)
Definition setItem (key value : string) : t unit :=
  fun w =>
    if holds key value w then (Normal tt, w)
    else if storageFull w then (Throw {| code := Some 22 |}, w)
    else
      (Normal tt,
       {| walletState := walletState w;
          localStorage := <[key := value]> (localStorage w);
          storageFull := storageFull w;
          history := history w |}).

(** [localStorage.removeItem(key)], where the page may use its storage:
    removing needs no room. *)
Definition removeItem (key : string) : t unit :=
  fun w =>
    (Normal tt,
     {| walletState := walletState w;
        localStorage := delete key (localStorage w);
        storageFull := storageFull w;
        history := history w |}).

(** The page after a call. *)
Definition run {A} (c : t A) (w : World) : World := snd (c w).

End Async.

Declare Scope async_scope.
Delimit Scope async_scope with async.
Notation "x <- c1 ;; c2" := (Async.bind c1 (fun x => c2))
  (at level 100, c1 at next level, c2 at level 200, right associativity) : async_scope.
Notation "c1 ;; c2" := (Async.bind c1 (fun _ => c2))
  (at level 100, c2 at level 200, right associativity) : async_scope.

(* ===================================================================== *)
(** * The hook [useWallet] *)
(* ===================================================================== *)

(** The initial value of the state cell. *)
Definition initialWalletState : WalletState :=
  {| address := None;
     isConnected := false;
     isConnecting := false;
     error := None;
     chainId := None;
     balance := None |}.

(** [typeof window !== 'undefined' && !!window.ethereum?.isMetaMask], in a
    browser. *)
Definition isMetamaskInstalled (ethereum : option EthereumProvider) : bool :=
  match ethereum with
  | Some provider =>
      match isMetaMask provider with
      | Some b => b
      | None => false
      end
  | None => false
  end.

Section useWallet.

Import Async.
#[local] Open Scope async_scope.

(** The value of [isMetamaskInstalled] in the render the callbacks close
    over, and [window.ethereum] when they run. *)
Context (installed : bool) (ethereum : option EthereumProvider).

(** [if (!window.ethereum) throw new Error('Ethereum provider not
    available')], else the provider. *)
Definition provider : Async.t EthereumProvider :=
  match ethereum with
  | None => throw_Error
  | Some eth => ret eth
  end.

Definition getBalance (addr : string) : Async.t (option string) :=
  try_catch
    (eth <- provider ;;
     balanceHex <- await (eth_getBalance eth addr) ;;
     let balanceWei := Number.parseInt16 balanceHex in
     let balanceEth := Number.div balanceWei Number.lit_1e18 in
     ret (Some (Number.toFixed balanceEth 4)))
    (fun _ => ret None).

Definition updateWalletState (addr : string) : Async.t unit :=
  try_catch
    (eth <- provider ;;
     chain <- await (eth_chainId eth) ;;
     bal <- getBalance addr ;;
     setWalletState (fun prev =>
       {| address := Some addr;
          isConnected := true;
          isConnecting := false;
          error := None;
          chainId := Some chain;
          balance := bal |}) ;;
     setItem "walletConnected" "true")
    (fun _ =>
     setWalletState (fun prev =>
       {| address := prev.(address);
          isConnected := prev.(isConnected);
          isConnecting := false;
          error := Some "Failed to update wallet information";
          chainId := prev.(chainId);
          balance := prev.(balance) |})).

Definition connect : Async.t unit :=
  if negb installed then
    setWalletState (fun prev =>
      {| address := prev.(address);
         isConnected := prev.(isConnected);
         isConnecting := prev.(isConnecting);
         error := Some "MetaMask is not installed";
         chainId := prev.(chainId);
         balance := prev.(balance) |})
  else
    setWalletState (fun prev =>
      {| address := prev.(address);
         isConnected := prev.(isConnected);
         isConnecting := true;
         error := None;
         chainId := prev.(chainId);
         balance := prev.(balance) |}) ;;
    try_catch
      (eth <- provider ;;
       accounts <- await (eth_requestAccounts eth) ;;
       match accounts with
       | Some (account0 :: _) => updateWalletState account0
       | _ => ret tt
       end)
      (fun rpcError =>
       let errorMessage :=
         match rpcError.(code) with
         | Some 4001 => "Connection rejected by user"
         | _ => "Failed to connect wallet"
         end in
       setWalletState (fun prev =>
         {| address := prev.(address);
            isConnected := prev.(isConnected);
            isConnecting := false;
            error := Some errorMessage;
            chainId := prev.(chainId);
            balance := prev.(balance) |})).

Definition disconnect : Async.t unit :=
  setWalletState (fun _ =>
    {| address := None;
       isConnected := false;
       isConnecting := false;
       error := None;
       chainId := None;
       balance := None |}) ;;
  removeItem "walletConnected".

(** The callback reads [walletState.address] of the render it closes
    over. *)
Definition switchNetwork (chain : string) : Async.t unit :=
  closure <- rendered ;;
  try_catch
    (eth <- provider ;;
     await (wallet_switchEthereumChain eth chain) ;;
     match closure.(address) with
     | Some addr =>
         if JsString.truthy addr then updateWalletState addr else ret tt
     | None => ret tt
     end)
    (fun rpcError =>
     let errorMessage :=
       match rpcError.(code) with
       | Some 4902 => "This network is not added to MetaMask"
       | Some 4001 => "Network switch rejected by user"
       | _ => "Failed to switch network"
       end in
     setWalletState (fun prev =>
       {| address := prev.(address);
          isConnected := prev.(isConnected);
          isConnecting := prev.(isConnecting);
          error := Some errorMessage;
          chainId := prev.(chainId);
          balance := prev.(balance) |})).

(** The effect that runs when the hook is mounted. *)
Definition autoConnect : Async.t unit :=
  item <- getItem "walletConnected" ;;
  let wasConnected :=
    match item with
    | Some v => String.eqb v "true"
    | None => false
    end in
  match ethereum with
  | Some eth =>
      if wasConnected && installed then
        try_catch
          (accounts <- await (eth_accounts eth) ;;
           match accounts with
           | Some (account0 :: _) => updateWalletState account0
           | _ => ret tt
           end)
          (fun _ => removeItem "walletConnected")
      else ret tt
  | None => ret tt
  end.

(** The listener of ['accountsChanged']; [accountArray[0] !==
    walletState.address] compares with the address of the render the
    listener closes over. *)
Definition handleAccountsChanged (accountArray : list string) : Async.t unit :=
  closure <- rendered ;;
  match accountArray with
  | [] => disconnect
  | account0 :: _ =>
      let same :=
        match closure.(address) with
        | Some a => String.eqb account0 a
        | None => false
        end in
      if negb same then updateWalletState account0 else ret tt
  end.

(** The listeners are installed unless [!isMetamaskInstalled ||
    !window.ethereum]. *)
Definition subscribed : bool :=
  installed && match ethereum with Some _ => true | None => false end.

End useWallet.

(** The listener of ['chainChanged'] reloads the page: the hook is
    mounted again on the initial state, [localStorage] survives. *)
Definition handleChainChanged : Async.t unit :=
  Async.setWalletState (fun _ => initialWalletState).

(* ===================================================================== *)
(** * The card: [formatAddress] *)
(* ===================================================================== *)

Definition formatAddress (addr : string) : string :=
  if JsString.length addr <=? 10 then addr
  else
    JsString.substring addr 0 (Some 6) +:+ "..." +:+
    JsString.substring addr (JsString.length addr - 4) None.

(* ===================================================================== *)
(** * Calls and notifications, one after the other *)
(* ===================================================================== *)

(** What can happen to a mounted hook: a call of one of its operations, a
    run of the auto-reconnect effect, or a notification of the provider. *)
Inductive Call : Type :=
| CallConnect
| CallDisconnect
| CallSwitchNetwork (chain : string)
| RunAutoConnect
| NotifyAccountsChanged (accountArray : list string)
| NotifyChainChanged.

Definition perform (c : Call) (installed : bool) (ethereum : option EthereumProvider)
  : Async.t unit :=
  match c with
  | CallConnect => connect installed ethereum
  | CallDisconnect => disconnect
  | CallSwitchNetwork chain => switchNetwork ethereum chain
  | RunAutoConnect => autoConnect installed ethereum
  | NotifyAccountsChanged accountArray => handleAccountsChanged ethereum accountArray
  | NotifyChainChanged => handleChainChanged
  end.

(** Notifications arrive only while the listeners are installed.  With
    [guard], [connect] is called only on a session that is not connected:
    the card shows its Connect button only when [!isConnected]. *)
Definition permitted (guard : bool) (c : Call) (installed : bool)
    (ethereum : option EthereumProvider) (s : WalletState) : bool :=
  match c with
  | CallConnect => negb guard || negb (isConnected s)
  | NotifyAccountsChanged _ | NotifyChainChanged => subscribed installed ethereum
  | _ => true
  end.

(** The page when the hook is mounted. *)
Definition mounted (storage : gmap string string) : World :=
  {| walletState := initialWalletState;
     localStorage := storage;
     storageFull := false;
     history := [] |}.

(** The page when [localStorage] has filled up, or has room again. *)
Definition filled (full : bool) (w : World) : World :=
  {| walletState := walletState w;
     localStorage := localStorage w;
     storageFull := full;
     history := history w |}.

Inductive reachable (guard : bool) : World -> Prop :=
| reachable_mounted storage : reachable guard (mounted storage)
| reachable_filled w full :
    reachable guard w ->
    reachable guard (filled full w)
| reachable_call w c installed ethereum :
    reachable guard w ->
    permitted guard c installed ethereum (walletState w) = true ->
    reachable guard (Async.run (perform c installed ethereum) w).

(** [isConnecting] and [isConnected] are not both true. *)
Definition exclusive (s : WalletState) : Prop :=
  ~ (isConnecting s = true /\ isConnected s = true).

(** The balance [getBalance] hands back: the formatted balance, [None]
    ([null]) when the provider is absent or rejects the query. *)
Definition fetched (ethereum : option EthereumProvider) (addr : string) : option string :=
  match ethereum with
  | Some eth =>
      match eth_getBalance eth addr with
      | Resolved balanceHex =>
          Some (Number.toFixed (Number.div (Number.parseInt16 balanceHex) Number.lit_1e18) 4)
      | Rejected _ => None
      end
  | None => None
  end.

(* ===================================================================== *)
(** * Providers and pages used as examples *)
(* ===================================================================== *)

Definition example_account : string := "0x71C7656EC7ab88b098defB751B7401B5f6d8976F".
Definition other_account : string := "0x0000000000000000000000000000000000000001".

(** A wallet that grants its account and answers every query; the balance
    is [10^18] wei. *)
Definition granting : EthereumProvider :=
  {| isMetaMask := Some true;
     eth_requestAccounts := Resolved (Some [example_account]);
     eth_accounts := Resolved (Some [example_account]);
     eth_chainId := Resolved "0x1";
     eth_getBalance := fun _ => Resolved "0xde0b6b3a7640000";
     wallet_switchEthereumChain := fun _ => Resolved tt |}.

(** A wallet whose user declines the prompt (code 4001) and that does not
    know the requested network (code 4902). *)
Definition declining : EthereumProvider :=
  {| isMetaMask := Some true;
     eth_requestAccounts := Rejected {| code := Some 4001 |};
     eth_accounts := Resolved (Some []);
     eth_chainId := Resolved "0x1";
     eth_getBalance := fun _ => Resolved "0x0";
     wallet_switchEthereumChain := fun _ => Rejected {| code := Some 4902 |} |}.

(** A wallet that has lost its node: every query fails with the internal
    error code. *)
Definition failing : EthereumProvider :=
  {| isMetaMask := Some true;
     eth_requestAccounts := Resolved (Some [example_account]);
     eth_accounts := Resolved (Some [example_account]);
     eth_chainId := Rejected {| code := Some (-32603) |};
     eth_getBalance := fun _ => Rejected {| code := Some (-32603) |};
     wallet_switchEthereumChain := fun _ => Rejected {| code := Some (-32603) |} |}.

(** A wallet that answers the account request with an empty list. *)
Definition empty_handed : EthereumProvider :=
  {| isMetaMask := Some true;
     eth_requestAccounts := Resolved (Some []);
     eth_accounts := Resolved (Some []);
     eth_chainId := Resolved "0x1";
     eth_getBalance := fun _ => Resolved "0x0";
     wallet_switchEthereumChain := fun _ => Resolved tt |}.

(** A wallet on a development chain whose account holds [2^256 - 1] wei. *)
Definition prefunded : EthereumProvider :=
  {| isMetaMask := Some true;
     eth_requestAccounts := Resolved (Some [example_account]);
     eth_accounts := Resolved (Some [example_account]);
     eth_chainId := Resolved "0x539";
     eth_getBalance := fun _ =>
       Resolved "0xffffffffffffffffffffffffffffffffffffffffffffffffffffffffffffffff";
     wallet_switchEthereumChain := fun _ => Resolved tt |}.

(** The page after a first successful [connect]. *)
Definition connected_page : World :=
  Async.run (connect true (Some granting)) (mounted ∅).




(* ===================================================================== *)
(** * The card: [getChainName] and [commonNetworks] *)
(* ===================================================================== *)

(** The own properties of the object literal [chainIdMap]. *)
Definition chainIdMap : gmap string string :=
  <["0x1" := "Ethereum Mainnet"]>
  (<["0x5" := "Goerli Testnet"]>
  (<["0xaa36a7" := "Sepolia Testnet"]>
  (<["0x89" := "Polygon Mainnet"]>
  (<["0x13881" := "Mumbai Testnet"]>
  (<["0xa4b1" := "Arbitrum One"]>
  (<["0xa" := "Optimism"]> ∅)))))).

(** The property names an object literal inherits from [Object.prototype];
    each holds a function or an accessor, none a string. *)
Definition Object_prototype : list string :=
  [ "constructor"; "hasOwnProperty"; "isPrototypeOf"; "propertyIsEnumerable";
    "toLocaleString"; "toString"; "valueOf"; "__defineGetter__";
    "__defineSetter__"; "__lookupGetter__"; "__lookupSetter__"; "__proto__" ].

Definition inherited (key : string) : bool :=
  existsb (String.eqb key) Object_prototype.

(** What [getChainName] hands back: a string, or the member of
    [Object.prototype] that [chainIdMap[id]] finds (truthy, so [||] keeps
    it). *)
Inductive ChainName : Type :=
| Name (s : string)
| Member (key : string).

(** [chainIdMap[id] || `Chain ${id}`] *)
Definition getChainName (id : string) : ChainName :=
  match chainIdMap !! id with
  | Some name => if JsString.truthy name then Name name else Name ("Chain " +:+ id)
  | None => if inherited id then Member id else Name ("Chain " +:+ id)
  end.

Record Network := { net_id : string; net_name : string }.

Definition commonNetworks : list Network :=
  [ {| net_id := "0x1"; net_name := "Ethereum Mainnet" |};
    {| net_id := "0x5"; net_name := "Goerli Testnet" |};
    {| net_id := "0xaa36a7"; net_name := "Sepolia Testnet" |};
    {| net_id := "0x89"; net_name := "Polygon Mainnet" |} ].

(* ===================================================================== *)
(** * More providers and pages used as examples *)
(* ===================================================================== *)

(** A locked wallet: the passive account query fails, the prompt is
    closed with an error other than 4001, a switch is declined. *)
Definition locked : EthereumProvider :=
  {| isMetaMask := Some true;
     eth_requestAccounts := Rejected {| code := Some (-32002) |};
     eth_accounts := Rejected {| code := Some (-32603) |};
     eth_chainId := Resolved "0x1";
     eth_getBalance := fun _ => Resolved "0x0";
     wallet_switchEthereumChain := fun _ => Rejected {| code := Some 4001 |} |}.

(** A wallet that grants its account but cannot tell the chain. *)
Definition chainless : EthereumProvider :=
  {| isMetaMask := Some true;
     eth_requestAccounts := Resolved (Some [example_account]);
     eth_accounts := Resolved (Some [example_account]);
     eth_chainId := Rejected {| code := Some (-32603) |};
     eth_getBalance := fun _ => Resolved "0x0";
     wallet_switchEthereumChain := fun _ => Resolved tt |}.

(** [localStorage] holding the flag and a key of another script. *)
Definition flagged : gmap string string :=
  <["walletConnected" := "true"]> (<["theme" := "dark"]> ∅).

(** A flagged page whose session is in an arbitrary earlier state. *)
Definition stale_page : World :=
  {| walletState :=
       {| address := None;
          isConnected := false;
          isConnecting := true;
          error := Some "Failed to connect wallet";
          chainId := None;
          balance := None |};
     localStorage := flagged;
     storageFull := false;
     history := [] |}.

(** How the fields of a session go together: connected exactly when an
    address is held, a chain id exactly then too, a balance only then. *)
Definition consistent (s : WalletState) : Prop :=
  (isConnected s = true <-> address s <> None) /\
  (chainId s <> None <-> address s <> None) /\
  (balance s <> None -> address s <> None).

(** A day of the hook: a declined prompt, a granted one, a switch the
    wallet does not know, a reload with auto-reconnect, a lost node. *)
Definition busy_page : World :=
  Async.run (perform (NotifyAccountsChanged [other_account]) true (Some failing))
    (Async.run (perform RunAutoConnect true (Some granting))
       (Async.run (perform NotifyChainChanged true (Some granting))
          (Async.run (perform (CallSwitchNetwork "0x89") true (Some declining))
             (Async.run (perform CallConnect true (Some granting))
                (Async.run (perform CallConnect true (Some declining))
                   (mounted flagged)))))).

(** A freshly mounted page whose [localStorage] is full. *)
Definition full_page : World := filled true (mounted ∅).

(** The granting wallet later: the same account and chain, another
    balance ([2 * 10^18] wei). *)
Definition granting_later : EthereumProvider :=
  {| isMetaMask := Some true;
     eth_requestAccounts := Resolved (Some [example_account]);
     eth_accounts := Resolved (Some [example_account]);
     eth_chainId := Resolved "0x1";
     eth_getBalance := fun _ => Resolved "0x1bc16d674ec80000";
     wallet_switchEthereumChain := fun _ => Resolved tt |}.
(* ===================================================================== *)
(** * Properties of the operations *)
(* ===================================================================== *)


Arguments Number.toFixed : simpl never.
Arguments Number.div : simpl never.
Arguments Number.parseInt16 : simpl never.

Section Operations.

Import Async.

Lemma getBalance_fetched ethereum addr w :
  getBalance ethereum addr w = (Normal (fetched ethereum addr), w).
Proof.
  unfold getBalance, fetched, try_catch, bind, provider, await, ret, throw_Error.
  destruct ethereum as [eth|]; [|reflexivity].
  destruct (eth_getBalance eth addr); reflexivity.
Qed.

(** A value that is held is stored again without change. *)
Lemma holds_insert key value w :
  holds key value w = true ->
  <[key := value]> (localStorage w) = localStorage w.
Proof.
  unfold holds. intros Hholds. apply insert_id.
  destruct (localStorage w !! key) as [old|]; [|discriminate Hholds].
  apply String.eqb_eq in Hholds. rewrite Hholds. reflexivity.
Qed.

(** A refresh whose chain-id query succeeds, on a page that stores the
    flag, writes the new session and the flag, whatever the balance query
    does. *)
Lemma updateWalletState_resolved eth addr chain w :
  eth_chainId eth = Resolved chain ->
  stores "walletConnected" "true" w = true ->
  updateWalletState (Some eth) addr w =
    (Normal tt,
     {| walletState :=
          {| address := Some addr;
             isConnected := true;
             isConnecting := false;
             error := None;
             chainId := Some chain;
             balance := fetched (Some eth) addr |};
        localStorage := <["walletConnected" := "true"]> (localStorage w);
        storageFull := storageFull w;
        history := walletState w :: history w |}).
Proof.
  intros Hchain Hstores.
  unfold updateWalletState, try_catch, bind, provider, await, ret.
  rewrite Hchain, getBalance_fetched.
  unfold setWalletState, setItem, stores, holds in *. cbn in *.
  destruct (match localStorage w !! "walletConnected" with
            | Some old => String.eqb old "true"
            | None => false
            end) eqn:Hholds.
  - rewrite (holds_insert "walletConnected" "true" w Hholds). reflexivity.
  - cbn in Hstores. apply negb_true_iff in Hstores. rewrite Hstores. reflexivity.
Qed.

(** A refresh whose chain-id query succeeds, on a page that cannot store
    the flag: the new session is written, [setItem] throws, and the catch
    writes the message over the new session. *)
Lemma updateWalletState_refused eth addr chain w :
  eth_chainId eth = Resolved chain ->
  stores "walletConnected" "true" w = false ->
  updateWalletState (Some eth) addr w =
    (Normal tt,
     {| walletState :=
          {| address := Some addr;
             isConnected := true;
             isConnecting := false;
             error := Some "Failed to update wallet information";
             chainId := Some chain;
             balance := fetched (Some eth) addr |};
        localStorage := localStorage w;
        storageFull := storageFull w;
        history :=
          {| address := Some addr;
             isConnected := true;
             isConnecting := false;
             error := None;
             chainId := Some chain;
             balance := fetched (Some eth) addr |}
          :: walletState w :: history w |}).
Proof.
  intros Hchain Hstores.
  unfold updateWalletState, try_catch, bind, provider, await, ret.
  rewrite Hchain, getBalance_fetched.
  unfold setWalletState, setItem, stores, holds in *. cbn in *.
  apply orb_false_iff in Hstores as [Hholds Hfull].
  apply negb_false_iff in Hfull. rewrite Hholds, Hfull. reflexivity.
Qed.

(** A refresh without provider, or whose chain-id query fails, writes
    the message and clears [isConnecting]; nothing else. *)
Lemma updateWalletState_failed ethereum addr w :
  match ethereum with
  | Some eth => exists e, eth_chainId eth = Rejected e
  | None => True
  end ->
  updateWalletState ethereum addr w =
    (Normal tt,
     {| walletState :=
          {| address := address (walletState w);
             isConnected := isConnected (walletState w);
             isConnecting := false;
             error := Some "Failed to update wallet information";
             chainId := chainId (walletState w);
             balance := balance (walletState w) |};
        localStorage := localStorage w;
        storageFull := storageFull w;
        history := walletState w :: history w |}).
Proof.
  intros Hfail.
  unfold updateWalletState, try_catch, bind, provider, await, ret, throw_Error.
  destruct ethereum as [eth|]; [|reflexivity].
  destruct Hfail as [e He]. rewrite He. reflexivity.
Qed.

(** The two outcomes of a refresh, for case analysis. *)
Lemma updateWalletState_cases (ethereum : option EthereumProvider) :
  (exists eth chain,
      ethereum = Some eth /\ eth_chainId eth = Resolved chain) \/
  match ethereum with
  | Some eth => exists e, eth_chainId eth = Rejected e
  | None => True
  end.
Proof.
  destruct ethereum as [eth|]; [|right; exact I].
  destruct (eth_chainId eth) as [chain|e] eqn:E.
  - left. exists eth, chain. split; reflexivity || assumption.
  - right. exists e. reflexivity.
Qed.

(** The page after a [connect] call that is granted an account and
    whose chain-id query succeeds: two writes. *)
Lemma connect_granted eth account0 others chain w :
  eth_requestAccounts eth = Resolved (Some (account0 :: others)) ->
  eth_chainId eth = Resolved chain ->
  stores "walletConnected" "true" w = true ->
  run (connect true (Some eth)) w =
    {| walletState :=
         {| address := Some account0;
            isConnected := true;
            isConnecting := false;
            error := None;
            chainId := Some chain;
            balance := fetched (Some eth) account0 |};
       localStorage := <["walletConnected" := "true"]> (localStorage w);
       storageFull := storageFull w;
       history :=
         {| address := address (walletState w);
            isConnected := isConnected (walletState w);
            isConnecting := true;
            error := None;
            chainId := chainId (walletState w);
            balance := balance (walletState w) |}
         :: walletState w :: history w |}.
Proof.
  intros Haccounts Hchain Hstores.
  unfold run, connect, try_catch, bind, provider, await, ret, setWalletState.
  cbn [negb]. rewrite Haccounts.
  rewrite (updateWalletState_resolved eth account0 chain _ Hchain) by exact Hstores.
  reflexivity.
Qed.

(** The page after a [connect] call that is granted an account and
    whose chain-id query succeeds, when the flag cannot be stored: three
    writes, the last with the message of the refresh. *)
Lemma connect_granted_unstored eth account0 others chain w :
  eth_requestAccounts eth = Resolved (Some (account0 :: others)) ->
  eth_chainId eth = Resolved chain ->
  stores "walletConnected" "true" w = false ->
  run (connect true (Some eth)) w =
    {| walletState :=
         {| address := Some account0;
            isConnected := true;
            isConnecting := false;
            error := Some "Failed to update wallet information";
            chainId := Some chain;
            balance := fetched (Some eth) account0 |};
       localStorage := localStorage w;
       storageFull := storageFull w;
       history :=
         {| address := Some account0;
            isConnected := true;
            isConnecting := false;
            error := None;
            chainId := Some chain;
            balance := fetched (Some eth) account0 |}
         :: {| address := address (walletState w);
               isConnected := isConnected (walletState w);
               isConnecting := true;
               error := None;
               chainId := chainId (walletState w);
               balance := balance (walletState w) |}
         :: walletState w :: history w |}.
Proof.
  intros Haccounts Hchain Hstores.
  unfold run, connect, try_catch, bind, provider, await, ret, setWalletState.
  cbn [negb]. rewrite Haccounts.
  rewrite (updateWalletState_refused eth account0 chain _ Hchain) by exact Hstores.
  reflexivity.
Qed.

(** C1, as the code has it.  A [connect] call in which the provider
    returns a non-empty account list and the chain-id query then succeeds
    leaves the session with [isConnected = true], [isConnecting = false]
    and [address] the first account of the list.  [error] is absent when
    [localStorage] stores the flag (it holds ['walletConnected' = 'true']
    already, or has room for it); when [localStorage.setItem] throws,
    [error = "Failed to update wallet information"]. *)
Theorem connect_success installed eth account0 others chain w :
  installed = true ->
  eth_requestAccounts eth = Resolved (Some (account0 :: others)) ->
  eth_chainId eth = Resolved chain ->
  let s := walletState (run (connect installed (Some eth)) w) in
  isConnected s = true /\
  isConnecting s = false /\
  address s = Some account0 /\
  (stores "walletConnected" "true" w = true -> error s = None) /\
  (stores "walletConnected" "true" w = false ->
   error s = Some "Failed to update wallet information").
Proof.
  intros -> Haccounts Hchain s. subst s.
  destruct (stores "walletConnected" "true" w) eqn:Hstores.
  - rewrite (connect_granted eth account0 others chain w Haccounts Hchain Hstores).
    cbn. repeat split. intros H. discriminate H.
  - rewrite (connect_granted_unstored eth account0 others chain w Haccounts Hchain
               Hstores).
    cbn. repeat split. intros H. discriminate H.
Qed.

Lemma connect_success_witness :
  let installed := isMetamaskInstalled (Some granting) in
  let s := walletState (run (connect installed (Some granting)) (mounted ∅)) in
  isConnected s = true /\
  isConnecting s = false /\
  address s = Some example_account /\
  (stores "walletConnected" "true" (mounted ∅) = true -> error s = None) /\
  (stores "walletConnected" "true" (mounted ∅) = false ->
   error s = Some "Failed to update wallet information").
Proof.
  apply (connect_success (isMetamaskInstalled (Some granting)) granting
           example_account [] "0x1" (mounted ∅));
    reflexivity.
Defined.

(** C1, as stated, fails: when [localStorage] is full, a [connect] that
    is granted an account and told the chain ends connected, with the
    message of the refresh as [error]. *)
Lemma connect_success_counterexample :
  let s := walletState (run (connect true (Some granting)) full_page) in
  isConnected s = true /\
  address s = Some example_account /\
  error s = Some "Failed to update wallet information" /\
  localStorage (run (connect true (Some granting)) full_page) !! "walletConnected"
    = None /\
  ~ (isConnected s = true /\
     isConnecting s = false /\
     address s = Some example_account /\
     error s = None).
Proof.
  cbn. repeat split.
  intros (_ & _ & _ & Herror). discriminate Herror.
Qed.

(** C3, as the code has it.  A refresh ([updateWalletState]) whose
    chain-id query fails leaves the session with [error = "Failed to
    update wallet information"] and [isConnecting = false]; [address],
    like [isConnected], [chainId] and [balance], keeps its previous
    value: the attempted address is not stored. *)
Theorem updateWalletState_failure eth e addr w :
  eth_chainId eth = Rejected e ->
  let prev := walletState w in
  let s := walletState (run (updateWalletState (Some eth) addr) w) in
  address s = address prev /\
  error s = Some "Failed to update wallet information" /\
  isConnecting s = false /\
  isConnected s = isConnected prev /\
  chainId s = chainId prev /\
  balance s = balance prev.
Proof.
  intros Hchain prev s. subst prev s. unfold run.
  rewrite (updateWalletState_failed (Some eth) addr w) by (exists e; exact Hchain).
  cbn. repeat split.
Qed.

Lemma updateWalletState_failure_witness :
  let prev := walletState connected_page in
  let s := walletState (run (updateWalletState (Some failing) other_account) connected_page) in
  address s = address prev /\
  error s = Some "Failed to update wallet information" /\
  isConnecting s = false /\
  isConnected s = isConnected prev /\
  chainId s = chainId prev /\
  balance s = balance prev.
Proof.
  apply (updateWalletState_failure failing {| code := Some (-32603) |}
           other_account connected_page).
  reflexivity.
Defined.

(** C3, as stated, fails: on a freshly mounted hook a refresh for
    [example_account] whose chain-id query fails leaves [address] absent,
    and the message starts with a capital letter. *)
Lemma updateWalletState_failure_counterexample :
  let prev := walletState (mounted ∅) in
  let s := walletState (run (updateWalletState (Some failing) example_account) (mounted ∅)) in
  address s = None /\
  error s = Some "Failed to update wallet information" /\
  ~ (address s = Some example_account /\
     error s = Some "failed to update wallet information" /\
     isConnecting s = false /\
     isConnected s = isConnected prev).
Proof.
  cbn. split; [reflexivity|]. split; [reflexivity|].
  intros [Haddress _]. discriminate Haddress.
Qed.

(** A failing balance query alone is no failure of the refresh: on a
    page that stores the flag the session is connected, with [balance]
    absent. *)
Lemma updateWalletState_without_balance eth e addr chain w :
  eth_chainId eth = Resolved chain ->
  eth_getBalance eth addr = Rejected e ->
  stores "walletConnected" "true" w = true ->
  let s := walletState (run (updateWalletState (Some eth) addr) w) in
  isConnected s = true /\ error s = None /\ balance s = None.
Proof.
  intros Hchain Hbalance Hstores s. subst s. unfold run.
  rewrite (updateWalletState_resolved eth addr chain w Hchain Hstores).
  cbn. rewrite Hbalance. repeat split.
Qed.

(** The page after a [connect] call whose account request is rejected:
    two writes, the second with the message for the code. *)
Lemma connect_refused eth e w :
  eth_requestAccounts eth = Rejected e ->
  run (connect true (Some eth)) w =
    {| walletState :=
         {| address := address (walletState w);
            isConnected := isConnected (walletState w);
            isConnecting := false;
            error :=
              Some match code e with
                   | Some 4001 => "Connection rejected by user"
                   | _ => "Failed to connect wallet"
                   end;
            chainId := chainId (walletState w);
            balance := balance (walletState w) |};
       localStorage := localStorage w;
       storageFull := storageFull w;
       history :=
         {| address := address (walletState w);
            isConnected := isConnected (walletState w);
            isConnecting := true;
            error := None;
            chainId := chainId (walletState w);
            balance := balance (walletState w) |}
         :: walletState w :: history w |}.
Proof.
  intros Haccounts.
  unfold run, connect, try_catch, bind, provider, await, ret, setWalletState.
  cbn [negb]. rewrite Haccounts. reflexivity.
Qed.

(** C4, as the code has it.  A [connect] call whose account request is
    rejected with code 4001 leaves the session with [isConnecting =
    false] and [error = "Connection rejected by user"]; [address], like
    every other field, keeps its previous value, so it is absent when it
    was absent before the call. *)
Theorem connect_rejected_by_user installed eth e w :
  installed = true ->
  eth_requestAccounts eth = Rejected e ->
  code e = Some 4001 ->
  let prev := walletState w in
  let s := walletState (run (connect installed (Some eth)) w) in
  isConnecting s = false /\
  error s = Some "Connection rejected by user" /\
  address s = address prev /\
  (address prev = None -> address s = None) /\
  isConnected s = isConnected prev /\
  chainId s = chainId prev /\
  balance s = balance prev.
Proof.
  intros -> Haccounts Hcode prev s. subst prev s.
  rewrite (connect_refused eth e w Haccounts), Hcode.
  cbn. repeat split. intros Hnone. exact Hnone.
Qed.

Lemma connect_rejected_by_user_witness :
  let prev := walletState (mounted ∅) in
  let s := walletState (run (connect true (Some declining)) (mounted ∅)) in
  isConnecting s = false /\
  error s = Some "Connection rejected by user" /\
  address s = address prev /\
  (address prev = None -> address s = None) /\
  isConnected s = isConnected prev /\
  chainId s = chainId prev /\
  balance s = balance prev.
Proof.
  apply (connect_rejected_by_user true declining {| code := Some 4001 |} (mounted ∅));
    reflexivity.
Defined.

(** C4, as stated, fails: after a first successful [connect], a second
    call that the user declines keeps the address, and the message
    starts with a capital letter. *)
Lemma connect_rejected_by_user_counterexample :
  let s := walletState (run (connect true (Some declining)) connected_page) in
  address s = Some example_account /\
  error s = Some "Connection rejected by user" /\
  ~ (isConnecting s = false /\
     error s = Some "connection rejected by user" /\
     address s = None).
Proof.
  cbn. split; [reflexivity|]. split; [reflexivity|].
  intros [_ [Herror _]]. discriminate Herror.
Qed.

(** C5, as the code has it.  A [connect] call made when MetaMask is not
    installed writes the session once, with [error = "MetaMask is not
    installed"] and every other field as before; [isConnecting] is not
    set on this path, and [localStorage] is untouched. *)
Theorem connect_not_installed installed ethereum w :
  installed = false ->
  let prev := walletState w in
  let w' := run (connect installed ethereum) w in
  let s := walletState w' in
  error s = Some "MetaMask is not installed" /\
  address s = address prev /\
  isConnected s = isConnected prev /\
  isConnecting s = isConnecting prev /\
  chainId s = chainId prev /\
  balance s = balance prev /\
  history w' = prev :: history w /\
  localStorage w' = localStorage w.
Proof.
  intros -> prev w' s. subst prev w' s. cbn. repeat split.
Qed.

Lemma connect_not_installed_witness :
  let prev := walletState (mounted ∅) in
  let w' := run (connect (isMetamaskInstalled None) None) (mounted ∅) in
  let s := walletState w' in
  error s = Some "MetaMask is not installed" /\
  address s = address prev /\
  isConnected s = isConnected prev /\
  isConnecting s = isConnecting prev /\
  chainId s = chainId prev /\
  balance s = balance prev /\
  history w' = prev :: history (mounted ∅) /\
  localStorage w' = localStorage (mounted ∅).
Proof.
  apply (connect_not_installed (isMetamaskInstalled None) None (mounted ∅)).
  reflexivity.
Defined.

(** C5, as stated, fails on the message: the code never writes
    ["provider not installed"]. *)
Lemma connect_not_installed_counterexample :
  let s := walletState (run (connect (isMetamaskInstalled None) None) (mounted ∅)) in
  error s = Some "MetaMask is not installed" /\
  error s <> Some "provider not installed".
Proof.
  cbn. split; [reflexivity|]. discriminate.
Qed.

(** C7. [disconnect] is idempotent: from any page, one call leaves the
    session all absent or false and the flag absent from [localStorage];
    a second call leaves the same session and the same [localStorage]. *)
Theorem disconnect_idempotent w :
  let w1 := run disconnect w in
  let w2 := run disconnect w1 in
  walletState w1 =
    {| address := None;
       isConnected := false;
       isConnecting := false;
       error := None;
       chainId := None;
       balance := None |} /\
  walletState w2 = walletState w1 /\
  localStorage w1 !! "walletConnected" = None /\
  localStorage w2 !! "walletConnected" = None /\
  localStorage w2 = localStorage w1.
Proof.
  intros w1 w2. subst w1 w2. cbn.
  split; [reflexivity|]. split; [reflexivity|].
  split; [apply lookup_delete_eq|]. split; [apply lookup_delete_eq|].
  apply delete_delete_eq.
Qed.

(** C8. A [switchNetwork] call that the provider rejects with code 4902
    leaves the session with [error = "This network is not added to
    MetaMask"] and every other field as before. *)
Theorem switchNetwork_not_added eth e chain w :
  wallet_switchEthereumChain eth chain = Rejected e ->
  code e = Some 4902 ->
  let prev := walletState w in
  let s := walletState (run (switchNetwork (Some eth) chain) w) in
  error s = Some "This network is not added to MetaMask" /\
  address s = address prev /\
  isConnected s = isConnected prev /\
  isConnecting s = isConnecting prev /\
  chainId s = chainId prev /\
  balance s = balance prev.
Proof.
  intros Hswitch Hcode prev s. subst prev s.
  unfold run, switchNetwork, rendered, try_catch, bind, provider, await, ret,
    setWalletState.
  rewrite Hswitch, Hcode. cbn. repeat split.
Qed.

Lemma switchNetwork_not_added_witness :
  let prev := walletState connected_page in
  let s := walletState (run (switchNetwork (Some declining) "0x89") connected_page) in
  error s = Some "This network is not added to MetaMask" /\
  address s = address prev /\
  isConnected s = isConnected prev /\
  isConnecting s = isConnecting prev /\
  chainId s = chainId prev /\
  balance s = balance prev.
Proof.
  apply (switchNetwork_not_added declining {| code := Some 4902 |} "0x89"
           connected_page); reflexivity.
Defined.

(** C9. A [connect] call whose account request succeeds with an empty
    list writes the session once: [isConnecting = true], no [error], the
    other fields as before.  No later write of the call clears
    [isConnecting]. *)
Theorem connect_empty_list installed eth w :
  installed = true ->
  eth_requestAccounts eth = Resolved (Some []) ->
  let prev := walletState w in
  let w' := run (connect installed (Some eth)) w in
  let s := walletState w' in
  isConnecting s = true /\
  error s = None /\
  address s = address prev /\
  isConnected s = isConnected prev /\
  chainId s = chainId prev /\
  balance s = balance prev /\
  history w' = prev :: history w.
Proof.
  intros -> Haccounts prev w' s. subst prev w' s.
  unfold run, connect, try_catch, bind, provider, await, ret, setWalletState.
  cbn [negb]. rewrite Haccounts. cbn. repeat split.
Qed.

Lemma connect_empty_list_witness :
  let prev := walletState (mounted ∅) in
  let w' := run (connect true (Some empty_handed)) (mounted ∅) in
  let s := walletState w' in
  isConnecting s = true /\
  error s = None /\
  address s = address prev /\
  isConnected s = isConnected prev /\
  chainId s = chainId prev /\
  balance s = balance prev /\
  history w' = prev :: history (mounted ∅).
Proof.
  apply (connect_empty_list true empty_handed (mounted ∅)); reflexivity.
Defined.

End Operations.

(* ===================================================================== *)
(** * The two flags over sequences of calls *)
(* ===================================================================== *)

Section Exclusive.

Import Async.


Lemma exclusive_connected s : isConnecting s = false -> exclusive s.
Proof. unfold exclusive. intros H [H' _]. congruence. Qed.












End Exclusive.

(* ===================================================================== *)
(** * Strings: prefixes, suffixes and [substring] *)
(* ===================================================================== *)

Section Strings.

Lemma app_cons c s t : String c s +:+ t = String c (s +:+ t).
Proof. reflexivity. Qed.

Lemma app_empty t : "" +:+ t = t.
Proof. reflexivity. Qed.

Lemma take_drop n s : JsString.take n s +:+ JsString.drop n s = s.
Proof.
  revert s. induction n as [|n IH]; intros [|c s]; cbn; try reflexivity.
  rewrite app_cons, IH. reflexivity.
Qed.

Lemma length_take n s :
  (n <= String.length s)%nat -> String.length (JsString.take n s) = n.
Proof.
  revert s. induction n as [|n IH]; intros [|c s]; cbn; intros Hn;
    try reflexivity; try lia.
  rewrite IH by lia. reflexivity.
Qed.

Lemma length_drop n s :
  String.length (JsString.drop n s) = (String.length s - n)%nat.
Proof.
  revert s. induction n as [|n IH]; intros [|c s]; cbn; try reflexivity.
  apply IH.
Qed.

Lemma take_all n s : (String.length s <= n)%nat -> JsString.take n s = s.
Proof.
  revert s. induction n as [|n IH]; intros [|c s]; cbn; intros Hn;
    try reflexivity; try lia.
  rewrite IH by lia. reflexivity.
Qed.

Lemma take_take n m s :
  (n <= m)%nat -> JsString.take n (JsString.take m s) = JsString.take n s.
Proof.
  revert m s. induction n as [|n IH]; intros [|m] [|c s] Hnm; cbn;
    try reflexivity; try lia.
  rewrite IH by lia. reflexivity.
Qed.

Lemma length_app s t :
  String.length (s +:+ t) = (String.length s + String.length t)%nat.
Proof.
  induction s as [|c s IH]; [reflexivity|].
  rewrite app_cons. cbn. rewrite IH. reflexivity.
Qed.

Lemma app_assoc_string s t u : (s +:+ t) +:+ u = s +:+ (t +:+ u).
Proof.
  induction s as [|c s IH]; [reflexivity|].
  rewrite !app_cons, IH. reflexivity.
Qed.

Lemma substring_from_start m s : String.substring 0 m s = JsString.take m s.
Proof.
  revert s. induction m as [|m IH]; intros [|c s]; cbn; try reflexivity.
  rewrite IH. reflexivity.
Qed.

Lemma substring_drop n m s :
  String.substring n m s = JsString.take m (JsString.drop n s).
Proof.
  revert s. induction n as [|n IH]; intros s.
  - apply substring_from_start.
  - destruct s as [|c s]; cbn.
    + destruct m; reflexivity.
    + apply IH.
Qed.

(** [s.substring(0, n)] is the prefix of [n] code units. *)
Lemma substring_prefix s n :
  0 <= n <= JsString.length s ->
  JsString.substring s 0 (Some n) = JsString.take (Z.to_nat n) s.
Proof.
  unfold JsString.substring, JsString.clamp, JsString.length. intros Hn.
  rewrite substring_drop.
  replace (Z.to_nat (Z.min _ _)) with 0%nat by lia.
  cbn [JsString.drop]. f_equal. lia.
Qed.

(** [s.substring(n)] is what follows the first [n] code units. *)
Lemma substring_suffix s n :
  0 <= n <= JsString.length s ->
  JsString.substring s n None = JsString.drop (Z.to_nat n) s.
Proof.
  unfold JsString.substring, JsString.clamp, JsString.length. intros Hn.
  rewrite substring_drop.
  replace (Z.to_nat (Z.min _ _)) with (Z.to_nat n) by lia.
  apply take_all. rewrite length_drop. lia.
Qed.

(** C10. [formatAddress] returns a string of at most 10 code units
    unchanged; a longer one is its first 6 code units, then ["..."], then
    its last 4 code units. *)
Theorem formatAddress_shortens addr :
  ((String.length addr <= 10)%nat -> formatAddress addr = addr) /\
  ((10 < String.length addr)%nat ->
   exists first middle last,
     addr = first +:+ middle +:+ last /\
     String.length first = 6%nat /\
     String.length last = 4%nat /\
     formatAddress addr = first +:+ "..." +:+ last).
Proof.
  unfold formatAddress. split; intros Hlen.
  - destruct (Z.leb_spec (JsString.length addr) 10) as [_|Hgt]; [reflexivity|].
    unfold JsString.length in Hgt. lia.
  - destruct (Z.leb_spec (JsString.length addr) 10) as [Hle|_].
    { unfold JsString.length in Hle. lia. }
    rewrite substring_prefix by (unfold JsString.length; lia).
    rewrite substring_suffix by (unfold JsString.length; lia).
    set (n := Z.to_nat (JsString.length addr - 4)).
    assert (Hn : n = (String.length addr - 4)%nat)
      by (unfold n, JsString.length; lia).
    exists (JsString.take 6 addr),
           (JsString.drop 6 (JsString.take n addr)),
           (JsString.drop n addr).
    split.
    + rewrite <- app_assoc_string.
      replace (JsString.take 6 addr) with (JsString.take 6 (JsString.take n addr)).
      * rewrite take_drop. rewrite take_drop. reflexivity.
      * apply take_take. lia.
    + split; [apply length_take; lia|].
      split; [rewrite length_drop; lia|].
      reflexivity.
Qed.

Lemma formatAddress_shortens_witness :
  formatAddress "0x1234" = "0x1234" /\
  exists first middle last,
    example_account = first +:+ middle +:+ last /\
    String.length first = 6%nat /\
    String.length last = 4%nat /\
    formatAddress example_account = first +:+ "..." +:+ last.
Proof.
  split.
  - apply (proj1 (formatAddress_shortens "0x1234")). vm_compute. lia.
  - apply (proj2 (formatAddress_shortens example_account)). vm_compute. lia.
Defined.

End Strings.

(* ===================================================================== *)
(** * Decimal digits and [toFixed] *)
(* ===================================================================== *)

Section Decimal.

Lemma all_digits_app s t :
  JsString.all_digits (s +:+ t) = JsString.all_digits s && JsString.all_digits t.
Proof.
  induction s as [|c s IH]; [reflexivity|].
  rewrite app_cons. cbn. rewrite IH. apply andb_assoc.
Qed.

Lemma all_digits_repeat n : JsString.all_digits (JsString.repeat "0" n) = true.
Proof. induction n as [|n IH]; [reflexivity|]. cbn. exact IH. Qed.

Lemma length_repeat c n : String.length (JsString.repeat c n) = n.
Proof. induction n as [|n IH]; cbn; [reflexivity|]. rewrite IH. reflexivity. Qed.

Lemma all_digits_uint d :
  JsString.all_digits (NilEmpty.string_of_uint d) = true.
Proof. induction d; cbn; assumption || reflexivity. Qed.

Lemma to_uint_nonnil n : N.to_uint n <> Decimal.Nil.
Proof.
  destruct n as [|p]; [discriminate|]. apply DecimalPos.Unsigned.to_uint_nonnil.
Qed.

Lemma of_N_eq n : JsString.of_N n = NilEmpty.string_of_uint (N.to_uint n).
Proof.
  unfold JsString.of_N, NilZero.string_of_uint.
  pose proof (to_uint_nonnil n) as Hn.
  destruct (N.to_uint n); [contradiction|..]; reflexivity.
Qed.

Lemma all_digits_of_N n : JsString.all_digits (JsString.of_N n) = true.
Proof. rewrite of_N_eq. apply all_digits_uint. Qed.

Lemma length_of_N n : (1 <= String.length (JsString.of_N n))%nat.
Proof.
  rewrite of_N_eq. pose proof (to_uint_nonnil n) as Hn.
  destruct (N.to_uint n); [contradiction|..]; cbn; lia.
Qed.

(** Reading back the digits of a number gives the number. *)
Lemma to_N_of_N n : JsString.to_N (JsString.of_N n) = Some n.
Proof.
  unfold JsString.to_N, JsString.of_N.
  rewrite NilZero.usu by apply to_uint_nonnil.
  cbn. rewrite DecimalN.Unsigned.of_to. reflexivity.
Qed.

(** Zeros in front do not change the number read. *)
Lemma to_N_zeros j s :
  s <> "" -> JsString.to_N (JsString.repeat "0" j +:+ s) = JsString.to_N s.
Proof.
  intros Hs. induction j as [|j IH]; [reflexivity|].
  cbn [JsString.repeat]. rewrite app_cons. rewrite <- IH.
  unfold JsString.to_N.
  destruct (JsString.repeat "0" j +:+ s) as [|c r] eqn:E.
  { destruct j; [rewrite app_empty in E; contradiction|discriminate E]. }
  change (NilZero.uint_of_string (String "0" (String c r)))
    with (uint_of_char "0" (NilEmpty.uint_of_string (String c r))).
  change (NilZero.uint_of_string (String c r))
    with (NilEmpty.uint_of_string (String c r)).
  destruct (NilEmpty.uint_of_string (String c r)) as [d|]; reflexivity.
Qed.

Lemma all_digits_take n s :
  JsString.all_digits s = true -> JsString.all_digits (JsString.take n s) = true.
Proof.
  revert s. induction n as [|n IH]; intros [|c s]; cbn; try reflexivity.
  intros [Hc Hs]%andb_prop. rewrite Hc. cbn. apply IH. exact Hs.
Qed.

Lemma all_digits_drop n s :
  JsString.all_digits s = true -> JsString.all_digits (JsString.drop n s) = true.
Proof.
  revert s. induction n as [|n IH]; intros [|c s]; cbn; try reflexivity;
    try (intros H; exact H).
  intros [Hc Hs]%andb_prop. apply IH. exact Hs.
Qed.

(** The shape of the digits [toFixed] writes for the scaled integer
    [n]: digits, a point, [f] digits; together they read as [n]. *)
Lemma fixed_digits_shape n f :
  f <> 0%nat ->
  exists whole fraction,
    Number.fixed_digits n f = whole +:+ "." +:+ fraction /\
    String.length fraction = f /\
    whole <> "" /\
    JsString.all_digits whole = true /\
    JsString.all_digits fraction = true /\
    JsString.to_N (whole +:+ fraction) = Some (Z.to_N n).
Proof.
  intros Hf. unfold Number.fixed_digits.
  set (m0 := JsString.of_N (Z.to_N n)).
  pose proof (all_digits_of_N (Z.to_N n)) as Hdigits0.
  pose proof (length_of_N (Z.to_N n)) as Hlength0.
  pose proof (to_N_of_N (Z.to_N n)) as Hread0.
  fold m0 in Hdigits0, Hlength0, Hread0.
  set (m := if (String.length m0 <=? f)%nat
            then JsString.repeat "0" (f + 1 - String.length m0) +:+ m0 else m0).
  assert (Hm : (f + 1 <= String.length m)%nat /\
               JsString.all_digits m = true /\
               JsString.to_N m = Some (Z.to_N n)).
  { unfold m. destruct (Nat.leb_spec (String.length m0) f) as [Hle|Hgt].
    - rewrite length_app, length_repeat, all_digits_app, all_digits_repeat, Hdigits0.
      rewrite to_N_zeros; [|intros ->; cbn in Hlength0; lia].
      repeat split; [lia|exact Hread0].
    - repeat split; [lia|exact Hdigits0|exact Hread0]. }
  destruct Hm as (Hlength & Hdigits & Hread).
  destruct f as [|f']; [contradiction|].
  set (f := S f') in *.
  exists (JsString.take (String.length m - f) m),
         (JsString.drop (String.length m - f) m).
  split; [reflexivity|].
  split; [rewrite length_drop; lia|].
  split.
  { intros Hempty.
    pose proof (length_take (String.length m - f) m ltac:(lia)) as Htake.
    rewrite Hempty in Htake. cbn in Htake. lia. }
  split; [apply all_digits_take; exact Hdigits|].
  split; [apply all_digits_drop; exact Hdigits|].
  rewrite take_drop. exact Hread.
Qed.

Lemma skip_digits_point whole rest :
  JsString.all_digits whole = true ->
  JsString.skip_digits (whole +:+ "." +:+ rest) = "." +:+ rest.
Proof.
  induction whole as [|c whole IH]; [reflexivity|].
  cbn. intros [Hc Hwhole]%andb_prop. rewrite app_cons. cbn. rewrite Hc.
  apply IH. exact Hwhole.
Qed.

(** Strings of that shape are what [is_fixed] recognises. *)
Lemma is_fixed_shape sign whole fraction f :
  sign = "" \/ sign = "-" ->
  whole <> "" ->
  JsString.all_digits whole = true ->
  JsString.all_digits fraction = true ->
  String.length fraction = f ->
  JsString.is_fixed f (sign +:+ whole +:+ "." +:+ fraction) = true.
Proof.
  intros Hsign Hwhole Hdigits Hfraction Hlength.
  assert (Hunsigned : JsString.is_fixed f (whole +:+ "." +:+ fraction) = true).
  { unfold JsString.is_fixed.
    destruct whole as [|c whole]; [contradiction|].
    cbn in Hdigits. apply andb_prop in Hdigits as [Hc Hrest].
    rewrite app_cons.
    assert (Hminus : c <> "-"%char) by (intros ->; discriminate Hc).
    assert (Hsame : match String c (whole +:+ "." +:+ fraction) with
                    | String "-" s' => s'
                    | _ => String c (whole +:+ "." +:+ fraction)
                    end = String c (whole +:+ "." +:+ fraction)).
    { destruct c as [[] [] [] [] [] [] [] []]; try reflexivity. contradiction. }
    rewrite Hsame. cbn [JsString.skip_digits]. rewrite Hc.
    rewrite skip_digits_point by exact Hrest.
    rewrite app_cons, app_empty. rewrite Hfraction, Hlength, Nat.eqb_refl.
    reflexivity. }
  destruct Hsign as [->| ->]; [exact Hunsigned|].
  rewrite app_cons, app_empty.
  unfold JsString.is_fixed in *.
  destruct whole as [|c whole]; [contradiction|].
  rewrite app_cons in *.
  cbn in Hdigits. apply andb_prop in Hdigits as [Hc Hrest].
  assert (Hsame : match String c (whole +:+ "." +:+ fraction) with
                  | String "-" s' => s'
                  | _ => String c (whole +:+ "." +:+ fraction)
                  end = String c (whole +:+ "." +:+ fraction)).
  { destruct c as [[] [] [] [] [] [] [] []]; try reflexivity. discriminate Hc. }
  rewrite Hsame in Hunsigned. exact Hunsigned.
Qed.

End Decimal.

(* ===================================================================== *)
(** * [getBalance] *)
(* ===================================================================== *)

Section Balance.

Import Async.

Lemma magnitude_pos m e : (0 < Number.magnitude m e)%Q.
Proof.
  unfold Number.magnitude, Qlt. destruct e as [|p|p]; cbn; try lia.
  all: pose proof (Z.pow_pos_nonneg 2 (Z.pos p) ltac:(lia) ltac:(lia)); nia.
Qed.

(** The scaled integer [toFixed] writes is a nearest one. *)
Lemma nearest_scaled_close x f :
  (0 <= x)%Q ->
  0 <= Number.nearest_scaled x f /\
  (Qabs (inject_Z (Number.nearest_scaled x f) - x * inject_Z (10 ^ Z.of_nat f))
     <= 1 # 2)%Q.
Proof.
  intros Hx. unfold Number.nearest_scaled.
  set (c := inject_Z (10 ^ Z.of_nat f)).
  assert (Hc : (0 <= c)%Q).
  { unfold c. change 0%Q with (inject_Z 0). rewrite <- Zle_Qle.
    apply Z.pow_nonneg. lia. }
  assert (Hxc : (0 <= x * c)%Q) by (apply Qmult_le_0_compat; assumption).
  set (xc := (x * c)%Q) in *.
  pose proof (Qfloor_le (xc + (1 # 2))) as Hle.
  pose proof (Qlt_floor (xc + (1 # 2))) as Hlt.
  rewrite inject_Z_plus in Hlt.
  set (n := inject_Z (Qfloor (xc + (1 # 2)))) in *.
  split.
  - change 0 with (Qfloor 0). apply Qfloor_resp_le. lra.
  - apply Qabs_Qle_condition. change (inject_Z 1) with 1%Q in Hlt. split; lra.
Qed.

(** The shape of [x.toFixed(f)] for a finite [x] below [10^21] in
    magnitude. *)
Lemma toFixed_shape q x f :
  f <> 0%nat ->
  Number.real q = Some x ->
  (Qabs x < inject_Z (10 ^ 21))%Q ->
  exists sign whole fraction n,
    Number.toFixed q f = sign +:+ whole +:+ "." +:+ fraction /\
    (sign = "-" /\ (x < 0)%Q \/ sign = "" /\ (0 <= x)%Q) /\
    whole <> "" /\
    JsString.all_digits whole = true /\
    JsString.all_digits fraction = true /\
    String.length fraction = f /\
    JsString.to_N (whole +:+ fraction) = Some n /\
    (Qabs (inject_Z (Z.of_N n) - Qabs x * inject_Z (10 ^ Z.of_nat f)) <= 1 # 2)%Q.
Proof.
  intros Hf Hreal Hbound.
  destruct q as [s0|s0| |s0 m e]; try discriminate Hreal.
  - injection Hreal as <-.
    destruct (fixed_digits_shape 0 f Hf)
      as (whole & fraction & Heq & Hlen & Hne & Hw & Hfr & Hread).
    exists "", whole, fraction, 0%N.
    unfold Number.toFixed. rewrite Heq, app_empty.
    repeat split; try assumption.
    + right. split; [reflexivity|lra].
    + change (Qabs 0) with 0%Q. change (inject_Z (Z.of_N 0)) with 0%Q.
      apply Qabs_Qle_condition. split; lra.
  - cbn [Number.real] in Hreal.
    pose proof (magnitude_pos m e) as Hpos.
    set (mag := Number.magnitude m e) in *.
    assert (Habs : (Qabs x == mag)%Q).
    { injection Hreal as <-. destruct s0.
      - rewrite Qabs_opp. apply Qabs_pos. lra.
      - apply Qabs_pos. lra. }
    rewrite Habs in Hbound.
    assert (Hsmall : Qle_bool (inject_Z (10 ^ 21)) mag = false).
    { destruct (Qle_bool (inject_Z (10 ^ 21)) mag) eqn:E; [|reflexivity].
      apply Qle_bool_iff in E. lra. }
    destruct (nearest_scaled_close mag f ltac:(lra)) as [Hnonneg Hclose].
    destruct (fixed_digits_shape (Number.nearest_scaled mag f) f Hf)
      as (whole & fraction & Heq & Hlen & Hne & Hw & Hfr & Hread).
    exists (if s0 then "-" else ""), whole, fraction,
           (Z.to_N (Number.nearest_scaled mag f)).
    unfold Number.toFixed. fold mag. rewrite Hsmall, Heq.
    repeat split; try assumption.
    + injection Hreal as <-. destruct s0; [left|right]; split; try reflexivity; lra.
    + rewrite Z2N.id by exact Hnonneg. rewrite Habs. exact Hclose.
Qed.

Lemma toFixed_one_ether :
  Number.toFixed
    (Number.div (Number.parseInt16 "0xde0b6b3a7640000") Number.lit_1e18) 4 = "1.0000".
Proof. vm_compute. reflexivity. Qed.

Lemma toFixed_no_wei :
  Number.toFixed (Number.div (Number.parseInt16 "0x0") Number.lit_1e18) 4 = "0.0000".
Proof. vm_compute. reflexivity. Qed.

End Balance.

(* ===================================================================== *)
(** * Rounding: how large a quotient by [1e18] can be *)
(* ===================================================================== *)

Section Rounding.

(** [fexp] at precision 53 and maximal exponent 1024. *)
Lemma fexp_double e : fexp Number.prec Number.emax e = Z.max (e - 53) (-1074).
Proof. reflexivity. Qed.

Lemma digits2_size p : digits2_pos p = Pos.size p.
Proof. induction p as [p IH|p IH|]; cbn; rewrite ?IH; reflexivity. Qed.

Lemma Zdigits2_nonneg m : 0 <= Zdigits2 m.
Proof. destruct m; cbn; lia. Qed.

(** A positive number is below the power of two of its number of bits. *)
Lemma Zdigits2_gt m : 0 <= m -> m < 2 ^ Zdigits2 m.
Proof.
  intros Hm. destruct m as [|p|p]; cbn; try lia.
  rewrite digits2_size.
  pose proof (Pos.size_gt p) as H.
  apply Pos2Z.pos_lt_pos in H. rewrite Pos2Z.inj_pow in H. exact H.
Qed.

(** A number below [2^k] has at most [k] bits. *)
Lemma Zdigits2_le m k : 0 <= k -> 0 <= m < 2 ^ k -> Zdigits2 m <= k.
Proof.
  intros Hk [Hm Hlt]. destruct m as [|p|p]; cbn; try lia.
  rewrite digits2_size.
  pose proof (Pos.size_le p) as H.
  apply Pos2Z.pos_le_pos in H. rewrite Pos2Z.inj_pow in H.
  change (Z.pos p~0) with (2 * Z.pos p) in H.
  destruct (Z.le_gt_cases (Z.pos (Pos.size p)) k) as [Hle|Hgt]; [exact Hle|].
  assert (Hpow : 2 ^ (k + 1) <= 2 ^ Z.pos (Pos.size p))
    by (apply Z.pow_le_mono_r; lia).
  rewrite Z.pow_add_r in Hpow by lia. lia.
Qed.

(** One step of [shr] halves the mantissa. *)
Lemma shr_1_half mrs :
  0 <= shr_m mrs -> shr_m (shr_1 mrs) = shr_m mrs / 2.
Proof.
  destruct mrs as [m r s]. cbn [shr_m]. intros Hm.
  destruct m as [|[p|p|]|p]; cbn [shr_1 shr_m]; try lia; try reflexivity.
  - apply Z.div_unique with (r := 1); lia.
  - apply Z.div_unique with (r := 0); lia.
Qed.

Lemma pow2_xO p : 2 ^ Z.pos p~0 = 2 ^ Z.pos p * 2 ^ Z.pos p.
Proof.
  replace (Z.pos p~0) with (Z.pos p + Z.pos p) by lia.
  apply Z.pow_add_r; lia.
Qed.

Lemma pow2_xI p : 2 ^ Z.pos p~1 = 2 * (2 ^ Z.pos p * 2 ^ Z.pos p).
Proof.
  replace (Z.pos p~1) with (1 + (Z.pos p + Z.pos p)) by lia.
  rewrite Z.pow_add_r by lia. rewrite Z.pow_add_r by lia. reflexivity.
Qed.

Lemma iter_shr_1 p mrs :
  0 <= shr_m mrs ->
  shr_m (SpecFloat.iter_pos shr_1 p mrs) = shr_m mrs / 2 ^ Z.pos p.
Proof.
  revert mrs. induction p as [p IH|p IH|]; intros mrs Hm; cbn [SpecFloat.iter_pos].
  - assert (H1 : 0 <= shr_m (shr_1 mrs))
      by (rewrite shr_1_half by exact Hm; apply Z.div_pos; lia).
    assert (H2 : 0 <= shr_m (SpecFloat.iter_pos shr_1 p (shr_1 mrs)))
      by (rewrite IH by exact H1; apply Z.div_pos; lia).
    rewrite IH by exact H2. rewrite IH by exact H1. rewrite shr_1_half by exact Hm.
    assert (Hpow : 0 < 2 ^ Z.pos p) by (apply Z.pow_pos_nonneg; lia).
    rewrite !Z.div_div by nia. rewrite pow2_xI. f_equal; ring.
  - assert (H1 : 0 <= shr_m (SpecFloat.iter_pos shr_1 p mrs))
      by (rewrite IH by exact Hm; apply Z.div_pos; lia).
    rewrite IH by exact H1. rewrite IH by exact Hm.
    assert (Hpow : 0 < 2 ^ Z.pos p) by (apply Z.pow_pos_nonneg; lia).
    rewrite !Z.div_div by nia. rewrite pow2_xO. reflexivity.
  - rewrite shr_1_half by exact Hm. reflexivity.
Qed.

(** Bits plus exponent after [shr_fexp]: the mantissa stays a natural
    number and the sum does not grow beyond the smallest exponent. *)
Lemma shr_fexp_bound m e l :
  0 <= m ->
  let '(mrs', e') := shr_fexp Number.prec Number.emax m e l in
  0 <= shr_m mrs' /\
  Zdigits2 (shr_m mrs') + e' <= Z.max (Zdigits2 m + e) (-1074).
Proof.
  intros Hm. unfold shr_fexp, shr. rewrite fexp_double.
  assert (Hrecord : shr_m (shr_record_of_loc m l) = m)
    by (destruct l as [|[]]; reflexivity).
  pose proof (Zdigits2_nonneg m) as Hd.
  destruct (Z.max (Zdigits2 m + e - 53) (-1074) - e) as [|k|k] eqn:Ek.
  - rewrite Hrecord. split; lia.
  - rewrite iter_shr_1 by lia. rewrite Hrecord.
    assert (Hpow : 0 < 2 ^ Z.pos k) by (apply Z.pow_pos_nonneg; lia).
    split; [apply Z.div_pos; lia|].
    destruct (Z.le_gt_cases (Z.pos k) (Zdigits2 m)) as [Hle|Hgt].
    + assert (Hbits : Zdigits2 (m / 2 ^ Z.pos k) <= Zdigits2 m - Z.pos k).
      { apply Zdigits2_le; [lia|]. split; [apply Z.div_pos; lia|].
        apply Z.div_lt_upper_bound; [lia|].
        rewrite <- Z.pow_add_r by lia.
        replace (Z.pos k + (Zdigits2 m - Z.pos k)) with (Zdigits2 m) by lia.
        apply Zdigits2_gt. exact Hm. }
      lia.
    + assert (Hzero : m / 2 ^ Z.pos k = 0).
      { apply Z.div_small. split; [exact Hm|].
        apply Z.lt_le_trans with (2 ^ Zdigits2 m); [apply Zdigits2_gt; exact Hm|].
        apply Z.pow_le_mono_r; lia. }
      rewrite Hzero. cbn [Zdigits2]. lia.
  - rewrite Hrecord. split; lia.
Qed.

Lemma round_nearest_even_bound m l :
  0 <= m ->
  0 <= round_nearest_even m l /\
  Zdigits2 (round_nearest_even m l) <= Zdigits2 m + 1.
Proof.
  intros Hm. pose proof (Zdigits2_nonneg m) as Hd.
  pose proof (Zdigits2_gt m Hm) as Hgt.
  assert (Hsucc : Zdigits2 (m + 1) <= Zdigits2 m + 1).
  { apply Zdigits2_le; [lia|]. rewrite Z.pow_add_r by lia. lia. }
  unfold round_nearest_even. destruct l as [|[]]; try destruct (Z.even m); split; lia.
Qed.

(** The result of rounding a natural mantissa: zero, or a finite Number
    whose bits plus exponent exceed those of the input by at most one. *)
Lemma binary_round_aux_bound sx mx ex lx :
  0 <= mx ->
  Z.max (Zdigits2 mx + ex) (-1074) <= 971 ->
  binary_round_aux Number.prec Number.emax sx mx ex lx = S754_zero sx \/
  exists m e,
    binary_round_aux Number.prec Number.emax sx mx ex lx = S754_finite sx m e /\
    Z.pos (digits2_pos m) + e <= Z.max (Zdigits2 mx + ex) (-1074) + 1.
Proof.
  intros Hm Hrange. unfold binary_round_aux.
  pose proof (shr_fexp_bound mx ex lx Hm) as H1.
  destruct (shr_fexp Number.prec Number.emax mx ex lx) as [mrs1 e1].
  destruct H1 as [Hm1 Hd1].
  destruct (round_nearest_even_bound (shr_m mrs1) (loc_of_shr_record mrs1) Hm1)
    as [Hm2 Hd2].
  pose proof (shr_fexp_bound _ e1 loc_Exact Hm2) as H3.
  destruct (shr_fexp Number.prec Number.emax _ e1 loc_Exact) as [mrs3 e3].
  destruct H3 as [Hm3 Hd3].
  destruct (shr_m mrs3) as [|m|m] eqn:E3; [left; reflexivity| |lia].
  right. exists m, e3.
  change (Zdigits2 (Z.pos m)) with (Z.pos (digits2_pos m)) in Hd3.
  assert (Hfits : (e3 <=? Number.emax - Number.prec) = true).
  { apply Z.leb_le. unfold Number.emax, Number.prec. lia. }
  rewrite Hfits. split; [reflexivity|lia].
Qed.

Lemma digits2_iter_xO mx d :
  Z.pos (digits2_pos (Pos.iter xO mx d)) = Z.pos (digits2_pos mx) + Z.pos d.
Proof.
  induction d as [|d IH] using Pos.peano_ind.
  - cbn. lia.
  - rewrite Pos.iter_succ. cbn [digits2_pos]. lia.
Qed.

Lemma binary_round_bound sx p k :
  0 <= k <= 970 ->
  Z.pos (digits2_pos p) <= k ->
  binary_round Number.prec Number.emax sx p 0 = S754_zero sx \/
  exists m e,
    binary_round Number.prec Number.emax sx p 0 = S754_finite sx m e /\
    Z.pos (digits2_pos m) + e <= k + 1.
Proof.
  intros Hk Hbits. unfold binary_round, shl_align. rewrite fexp_double.
  destruct (Z.max (Z.pos (digits2_pos p) + 0 - 53) (-1074) - 0) as [|d|d] eqn:Ed.
  - destruct (binary_round_aux_bound sx (Z.pos p) 0 loc_Exact)
      as [Hzero|(m & e & Hfinite & Hbound)]; [lia|cbn [Zdigits2]; lia|..].
    + left. exact Hzero.
    + right. exists m, e. split; [exact Hfinite|]. cbn [Zdigits2] in Hbound. lia.
  - destruct (binary_round_aux_bound sx (Z.pos p) 0 loc_Exact)
      as [Hzero|(m & e & Hfinite & Hbound)]; [lia|cbn [Zdigits2]; lia|..].
    + left. exact Hzero.
    + right. exists m, e. split; [exact Hfinite|]. cbn [Zdigits2] in Hbound. lia.
  - set (ez := Z.max (Z.pos (digits2_pos p) + 0 - 53) (-1074)) in *.
    destruct (binary_round_aux_bound sx (Z.pos (Pos.iter xO p d)) ez loc_Exact)
      as [Hzero|(m & e & Hfinite & Hbound)];
      [lia|cbn [Zdigits2]; rewrite digits2_iter_xO; lia|..].
    + left. exact Hzero.
    + right. exists m, e. split; [exact Hfinite|].
      cbn [Zdigits2] in Hbound. rewrite digits2_iter_xO in Hbound. lia.
Qed.

(** The Number value of an integer below [2^k] in magnitude: zero, or
    finite with bits plus exponent at most [k + 1]. *)
Lemma of_Z_bound v k :
  0 <= k <= 970 ->
  Z.abs v < 2 ^ k ->
  (exists s, Number.of_Z v = S754_zero s) \/
  exists s m e,
    Number.of_Z v = S754_finite s m e /\ Z.pos (digits2_pos m) + e <= k + 1.
Proof.
  intros Hk Hv. unfold Number.of_Z, binary_normalize.
  destruct v as [|p|p]; [left; exists false; reflexivity|..].
  - assert (Hbits : Z.pos (digits2_pos p) <= k)
      by (apply (Zdigits2_le (Z.pos p) k); cbn in Hv; lia).
    destruct (binary_round_bound false p k Hk Hbits)
      as [Hzero|(m & e & Hfinite & Hbound)].
    + left. exists false. exact Hzero.
    + right. exists false, m, e. split; assumption.
  - assert (Hbits : Z.pos (digits2_pos p) <= k)
      by (apply (Zdigits2_le (Z.pos p) k); cbn in Hv; lia).
    destruct (binary_round_bound true p k Hk Hbits)
      as [Hzero|(m & e & Hfinite & Hbound)].
    + left. exists true. exact Hzero.
    + right. exists true, m, e. split; assumption.
Qed.

Lemma lit_1e18_eq : Number.lit_1e18 = S754_finite false 7812500000000000 7.
Proof. vm_compute. reflexivity. Qed.

(** The quotient by [1e18] of a finite Number: zero, or finite with bits
    plus exponent lower by 58 at least. *)
Lemma div_1e18_bound s m e K :
  Z.pos (digits2_pos m) + e <= K ->
  K <= 1030 ->
  (exists s', Number.div (S754_finite s m e) Number.lit_1e18 = S754_zero s') \/
  exists s' m' e',
    Number.div (S754_finite s m e) Number.lit_1e18 = S754_finite s' m' e' /\
    Z.pos (digits2_pos m') + e' <= Z.max (K - 59) (-1074) + 1.
Proof.
  intros Hbits HK. rewrite lit_1e18_eq. unfold Number.div, SFdiv, SFdiv_core_binary.
  rewrite fexp_double. cbn [Zdigits2].
  change (Z.pos (digits2_pos 7812500000000000)) with 53.
  set (d1 := Z.pos (digits2_pos m)) in *.
  set (e0 := Z.min (Z.max (d1 + e - (53 + 7) - 53) (-1074)) (e - 7)).
  set (shift := e - 7 - e0).
  assert (Hshift : 0 <= shift) by (unfold shift, e0; lia).
  set (dividend := match shift with
                   | 0 => Z.pos m
                   | Z.pos _ => Z.shiftl (Z.pos m) shift
                   | Z.neg _ => 0
                   end).
  assert (Hdividend : dividend = Z.pos m * 2 ^ shift).
  { unfold dividend. destruct shift as [|k|k] eqn:Ek; [cbn; lia| |lia].
    apply Z.shiftl_mul_pow2. lia. }
  pose proof (Z.div_eucl_eq dividend 7812500000000000 ltac:(lia)) as Heucl.
  pose proof (Z.mod_pos_bound dividend 7812500000000000 ltac:(lia)) as Hmod.
  unfold Z.modulo in Hmod.
  destruct (Z.div_eucl dividend 7812500000000000) as [q r].
  assert (Hpow : 0 < 2 ^ shift) by (apply Z.pow_pos_nonneg; lia).
  assert (Hm : Z.pos m < 2 ^ d1) by (apply (Zdigits2_gt (Z.pos m)); lia).
  assert (Hq : 0 <= q) by nia.
  assert (Hqbits : Zdigits2 q <= Z.max (d1 + shift - 52) 0).
  { apply Zdigits2_le; [lia|]. split; [exact Hq|].
    assert (Hlt : Z.pos m * 2 ^ shift < 2 ^ (d1 + shift)).
    { rewrite Z.pow_add_r by (unfold d1; lia). nia. }
    destruct (Z.le_gt_cases 52 (d1 + shift)) as [Hbig|Hsmall].
    - replace (Z.max (d1 + shift - 52) 0) with (d1 + shift - 52) by lia.
      assert (Hsplit : 2 ^ (d1 + shift) = 2 ^ 52 * 2 ^ (d1 + shift - 52)).
      { rewrite <- Z.pow_add_r by lia. f_equal. lia. }
      assert (H52 : 2 ^ 52 = 4503599627370496) by reflexivity.
      assert (Hrest : 0 < 2 ^ (d1 + shift - 52)) by (apply Z.pow_pos_nonneg; lia).
      nia.
    - replace (Z.max (d1 + shift - 52) 0) with 0 by lia.
      assert (Hle : 2 ^ (d1 + shift) <= 2 ^ 52)
        by (apply Z.pow_le_mono_r; unfold d1 in *; lia).
      assert (H52 : 2 ^ 52 = 4503599627370496) by reflexivity.
      change (2 ^ 0) with 1. nia. }
  destruct (binary_round_aux_bound (xorb s false) q e0 (new_location 7812500000000000 r))
    as [Hzero|(m' & e' & Hfinite & Hbound)].
  - exact Hq.
  - unfold shift, e0 in *. lia.
  - left. exists (xorb s false). exact Hzero.
  - right. exists (xorb s false), m', e'. split; [exact Hfinite|].
    unfold shift, e0 in *. lia.
Qed.

(** A finite Number with bits plus exponent at most 69 is below [10^21]. *)
Lemma magnitude_bound m e :
  Z.pos (digits2_pos m) + e <= 69 ->
  (Number.magnitude m e < inject_Z (10 ^ 21))%Q.
Proof.
  intros Hbits.
  pose proof (Zdigits2_gt (Z.pos m) ltac:(lia)) as Hm. cbn [Zdigits2] in Hm.
  set (d := Z.pos (digits2_pos m)) in *.
  assert (H69 : 2 ^ 69 < 10 ^ 21) by reflexivity.
  unfold Number.magnitude. destruct e as [|p|p].
  - rewrite <- Zlt_Qlt.
    assert (Hle : 2 ^ d <= 2 ^ 69) by (apply Z.pow_le_mono_r; lia). lia.
  - rewrite <- Zlt_Qlt.
    assert (Hpow : 0 < 2 ^ Z.pos p) by (apply Z.pow_pos_nonneg; lia).
    assert (Hle : 2 ^ (d + Z.pos p) <= 2 ^ 69) by (apply Z.pow_le_mono_r; lia).
    rewrite Z.pow_add_r in Hle by (unfold d; lia). nia.
  - unfold Qlt. cbn [Qnum Qden inject_Z]. rewrite Pos2Z.inj_pow.
    assert (Hpow : 0 < 2 ^ Z.pos p) by (apply Z.pow_pos_nonneg; lia).
    assert (Hle : 2 ^ d <= 2 ^ (69 + Z.pos p)) by (apply Z.pow_le_mono_r; lia).
    rewrite Z.pow_add_r in Hle by lia. nia.
Qed.

Lemma hex_digit_range c d : Number.hex_digit c = Some d -> 0 <= d.
Proof.
  unfold Number.hex_digit.
  repeat match goal with
         | |- context [if ?b then _ else _] => destruct b eqn:?
         end; intros [= <-]; lia.
Qed.

Lemma hex_prefix_nonneg s seen acc v :
  0 <= acc -> Number.hex_prefix s seen acc = Some v -> 0 <= v.
Proof.
  revert seen acc. induction s as [|c s IH]; intros seen acc Hacc; cbn.
  - destruct seen; intros [= <-]; exact Hacc.
  - destruct (Number.hex_digit c) as [d|] eqn:Ed.
    + apply IH. pose proof (hex_digit_range c d Ed). lia.
    + destruct seen; intros [= <-]; exact Hacc.
Qed.

Lemma mathInt16_nonneg input sign v :
  Number.mathInt16 input = Some (sign, v) -> 0 <= v.
Proof.
  unfold Number.mathInt16.
  destruct (match Number.trim_start input with
            | String "-" str' => (true, str')
            | String "+" str' => (false, str')
            | _ => (false, Number.trim_start input)
            end) as [sign' str].
  destruct (Number.hex_prefix (Number.strip_prefix str) false 0) as [v'|] eqn:E;
    [|discriminate].
  intros [= _ <-]. eapply hex_prefix_nonneg; [|exact E]. lia.
Qed.

(** For a balance below [2^126] wei the quotient by [1e18] is finite and
    below [10^21] in magnitude. *)
Lemma quotient_below_1e21 balanceHex sign v :
  Number.mathInt16 balanceHex = Some (sign, v) ->
  v < 2 ^ 126 ->
  exists x,
    Number.real (Number.div (Number.parseInt16 balanceHex) Number.lit_1e18) = Some x /\
    (Qabs x < inject_Z (10 ^ 21))%Q.
Proof.
  intros Hparse Hv.
  pose proof (mathInt16_nonneg balanceHex sign v Hparse) as Hnonneg.
  assert (Hzero : forall s,
             exists x,
               Number.real (Number.div (S754_zero s) Number.lit_1e18) = Some x /\
               (Qabs x < inject_Z (10 ^ 21))%Q).
  { intros s. rewrite lit_1e18_eq. exists 0%Q. split; [reflexivity|].
    vm_compute. reflexivity. }
  unfold Number.parseInt16. rewrite Hparse.
  assert (Hof : exists x,
             Number.real
               (Number.div (Number.of_Z (if sign then - v else v)) Number.lit_1e18)
               = Some x /\
             (Qabs x < inject_Z (10 ^ 21))%Q).
  { destruct (of_Z_bound (if sign then - v else v) 126 ltac:(lia))
      as [[s Hz]|(s & m & e & Hfinite & Hbound)].
    - destruct sign; lia.
    - rewrite Hz. apply Hzero.
    - rewrite Hfinite.
      destruct (div_1e18_bound s m e 127 Hbound ltac:(lia))
        as [[s' Hz]|(s' & m' & e' & Hfinite' & Hbound')].
      + rewrite Hz. exists 0%Q. split; [reflexivity|]. vm_compute. reflexivity.
      + rewrite Hfinite'. cbn [Number.real].
        pose proof (magnitude_bound m' e' ltac:(lia)) as Hmag.
        pose proof (magnitude_pos m' e') as Hpos.
        eexists. split; [reflexivity|].
        destruct s'.
        * rewrite Qabs_opp, Qabs_pos by lra. exact Hmag.
        * rewrite Qabs_pos by lra. exact Hmag. }
  destruct v as [|p|p]; [apply Hzero|exact Hof|lia].
Qed.

End Rounding.

(* ===================================================================== *)
(** * [getBalance]: four decimal places *)
(* ===================================================================== *)

Section FourDecimals.

Import Async.

(** The result of [getBalance] when the quotient is finite and below
    [10^21] in magnitude. *)
Lemma getBalance_fixed eth addr balanceHex w x :
  eth_getBalance eth addr = Resolved balanceHex ->
  Number.real (Number.div (Number.parseInt16 balanceHex) Number.lit_1e18) = Some x ->
  (Qabs x < inject_Z (10 ^ 21))%Q ->
  exists sign whole fraction n,
    getBalance (Some eth) addr w
      = (Normal (Some (sign +:+ whole +:+ "." +:+ fraction)), w) /\
    (sign = "-" /\ (x < 0)%Q \/ sign = "" /\ (0 <= x)%Q) /\
    whole <> "" /\
    JsString.all_digits whole = true /\
    JsString.all_digits fraction = true /\
    String.length fraction = 4%nat /\
    JsString.is_fixed 4 (sign +:+ whole +:+ "." +:+ fraction) = true /\
    JsString.to_N (whole +:+ fraction) = Some n /\
    (Qabs (inject_Z (Z.of_N n) - Qabs x * inject_Z (10 ^ 4)) <= 1 # 2)%Q.
Proof.
  intros Hquery Hreal Hbound.
  destruct (toFixed_shape _ x 4%nat ltac:(discriminate) Hreal Hbound)
    as (sign & whole & fraction & n & Heq & Hsign & Hne & Hw & Hfr & Hlen
        & Hread & Hclose).
  exists sign, whole, fraction, n.
  rewrite getBalance_fetched. unfold fetched. rewrite Hquery, Heq.
  repeat split; try assumption.
  apply is_fixed_shape; try assumption.
  destruct Hsign as [[-> _]|[-> _]]; [right|left]; reflexivity.
Qed.

(** C6, as the code has it.  [getBalance] parses the hexadecimal
    balance, divides it by [1e18] as a Number and writes the quotient
    with [toFixed(4)].  Whenever that quotient is finite and below
    [10^21] in magnitude, the result is in fixed-point notation with
    exactly 4 decimal places, and its digits denote an integer nearest to
    the quotient times [10^4]; this is so for every balance below
    [2^126] wei.  For ["0xde0b6b3a7640000"] the result is ["1.0000"], for
    ["0x0"] it is ["0.0000"]. *)
Theorem getBalance_four_decimals :
  (forall eth addr balanceHex w x,
      eth_getBalance eth addr = Resolved balanceHex ->
      Number.real (Number.div (Number.parseInt16 balanceHex) Number.lit_1e18)
        = Some x ->
      (Qabs x < inject_Z (10 ^ 21))%Q ->
      exists sign whole fraction n,
        getBalance (Some eth) addr w
          = (Normal (Some (sign +:+ whole +:+ "." +:+ fraction)), w) /\
        (sign = "-" /\ (x < 0)%Q \/ sign = "" /\ (0 <= x)%Q) /\
        whole <> "" /\
        JsString.all_digits whole = true /\
        JsString.all_digits fraction = true /\
        String.length fraction = 4%nat /\
        JsString.is_fixed 4 (sign +:+ whole +:+ "." +:+ fraction) = true /\
        JsString.to_N (whole +:+ fraction) = Some n /\
        (Qabs (inject_Z (Z.of_N n) - Qabs x * inject_Z (10 ^ 4)) <= 1 # 2)%Q) /\
  (forall eth addr balanceHex w sign v,
      eth_getBalance eth addr = Resolved balanceHex ->
      Number.mathInt16 balanceHex = Some (sign, v) ->
      v < 2 ^ 126 ->
      exists out,
        getBalance (Some eth) addr w = (Normal (Some out), w) /\
        JsString.is_fixed 4 out = true) /\
  (forall eth addr w,
      eth_getBalance eth addr = Resolved "0xde0b6b3a7640000" ->
      getBalance (Some eth) addr w = (Normal (Some "1.0000"), w)) /\
  (forall eth addr w,
      eth_getBalance eth addr = Resolved "0x0" ->
      getBalance (Some eth) addr w = (Normal (Some "0.0000"), w)).
Proof.
  split; [|split; [|split]].
  - intros eth addr balanceHex w x. apply getBalance_fixed.
  - intros eth addr balanceHex w sign v Hquery Hparse Hv.
    destruct (quotient_below_1e21 balanceHex sign v Hparse Hv) as (x & Hreal & Hbound).
    destruct (getBalance_fixed eth addr balanceHex w x Hquery Hreal Hbound)
      as (s & whole & fraction & n & Heq & _ & _ & _ & _ & _ & Hfixed & _).
    exists (s +:+ whole +:+ "." +:+ fraction). split; assumption.
  - intros eth addr w Hquery.
    rewrite getBalance_fetched. unfold fetched.
    rewrite Hquery, toFixed_one_ether. reflexivity.
  - intros eth addr w Hquery.
    rewrite getBalance_fetched. unfold fetched.
    rewrite Hquery, toFixed_no_wei. reflexivity.
Qed.

Lemma getBalance_four_decimals_witness :
  let x := (4503599627370496 # 4503599627370496)%Q in
  (exists sign whole fraction n,
      getBalance (Some granting) example_account (mounted ∅)
        = (Normal (Some (sign +:+ whole +:+ "." +:+ fraction)), mounted ∅) /\
      (sign = "-" /\ (x < 0)%Q \/ sign = "" /\ (0 <= x)%Q) /\
      whole <> "" /\
      JsString.all_digits whole = true /\
      JsString.all_digits fraction = true /\
      String.length fraction = 4%nat /\
      JsString.is_fixed 4 (sign +:+ whole +:+ "." +:+ fraction) = true /\
      JsString.to_N (whole +:+ fraction) = Some n /\
      (Qabs (inject_Z (Z.of_N n) - Qabs x * inject_Z (10 ^ 4)) <= 1 # 2)%Q) /\
  (exists out,
      getBalance (Some granting) example_account (mounted ∅)
        = (Normal (Some out), mounted ∅) /\
      JsString.is_fixed 4 out = true) /\
  getBalance (Some granting) example_account (mounted ∅)
    = (Normal (Some "1.0000"), mounted ∅) /\
  getBalance (Some declining) example_account (mounted ∅)
    = (Normal (Some "0.0000"), mounted ∅).
Proof.
  intros x. split; [|split; [|split]].
  - apply (proj1 getBalance_four_decimals granting example_account
             "0xde0b6b3a7640000" (mounted ∅) x).
    + reflexivity.
    + vm_compute. reflexivity.
    + vm_compute. reflexivity.
  - apply (proj1 (proj2 getBalance_four_decimals) granting example_account
             "0xde0b6b3a7640000" (mounted ∅) false (10 ^ 18)).
    + reflexivity.
    + vm_compute. reflexivity.
    + vm_compute. reflexivity.
  - apply (proj1 (proj2 (proj2 getBalance_four_decimals)) granting example_account
             (mounted ∅)).
    reflexivity.
  - apply (proj2 (proj2 (proj2 getBalance_four_decimals)) declining example_account
             (mounted ∅)).
    reflexivity.
Defined.

(** An answer without a hexadecimal digit is not a number, and is written
    as such. *)
Lemma getBalance_not_a_number eth addr w :
  eth_getBalance eth addr = Resolved "0x" ->
  getBalance (Some eth) addr w = (Normal (Some "NaN"), w).
Proof.
  intros Hquery. rewrite getBalance_fetched. unfold fetched. rewrite Hquery.
  reflexivity.
Qed.

(** C6, as stated, fails: for an account that holds [2^256 - 1] wei the
    quotient is above [10^21] and [toFixed] answers in exponential
    notation. *)
Lemma getBalance_four_decimals_counterexample :
  getBalance (Some prefunded) example_account (mounted ∅)
    = (Normal (Some "1.157920892373162e+59"), mounted ∅) /\
  JsString.is_fixed 4 "1.157920892373162e+59" = false.
Proof. split; vm_compute; reflexivity. Qed.

End FourDecimals.

(* ===================================================================== *)
(** * Further properties of the operations *)
(* ===================================================================== *)

Section MoreOperations.

Import Async.

(** X1. A [switchNetwork] call that the provider rejects with code 4001
    leaves the session with [error = "Network switch rejected by user"]
    and every other field as before; it writes the session once and does
    not touch [localStorage]. *)
Theorem switchNetwork_declined eth e chain w :
  wallet_switchEthereumChain eth chain = Rejected e ->
  code e = Some 4001 ->
  let prev := walletState w in
  let w' := run (switchNetwork (Some eth) chain) w in
  let s := walletState w' in
  error s = Some "Network switch rejected by user" /\
  address s = address prev /\
  isConnected s = isConnected prev /\
  isConnecting s = isConnecting prev /\
  chainId s = chainId prev /\
  balance s = balance prev /\
  history w' = prev :: history w /\
  localStorage w' = localStorage w.
Proof.
  intros Hswitch Hcode prev w' s. subst prev w' s.
  unfold run, switchNetwork, rendered, try_catch, bind, provider, await, ret,
    setWalletState.
  rewrite Hswitch, Hcode. cbn. repeat split.
Qed.

Lemma switchNetwork_declined_witness :
  let prev := walletState connected_page in
  let w' := run (switchNetwork (Some locked) "0x89") connected_page in
  let s := walletState w' in
  error s = Some "Network switch rejected by user" /\
  address s = address prev /\
  isConnected s = isConnected prev /\
  isConnecting s = isConnecting prev /\
  chainId s = chainId prev /\
  balance s = balance prev /\
  history w' = prev :: history connected_page /\
  localStorage w' = localStorage connected_page.
Proof.
  apply (switchNetwork_declined locked {| code := Some 4001 |} "0x89" connected_page);
    reflexivity.
Defined.

(** X2. A [switchNetwork] call made without provider, or rejected with a
    code other than 4902 and 4001 (or with no code), leaves the session
    with [error = "Failed to switch network"] and every other field as
    before. *)
Theorem switchNetwork_failed ethereum chain w :
  match ethereum with
  | Some eth =>
      exists e,
        wallet_switchEthereumChain eth chain = Rejected e /\
        code e <> Some 4902 /\ code e <> Some 4001
  | None => True
  end ->
  let prev := walletState w in
  let w' := run (switchNetwork ethereum chain) w in
  let s := walletState w' in
  error s = Some "Failed to switch network" /\
  address s = address prev /\
  isConnected s = isConnected prev /\
  isConnecting s = isConnecting prev /\
  chainId s = chainId prev /\
  balance s = balance prev /\
  localStorage w' = localStorage w.
Proof.
  intros Hfail prev w' s. subst prev w' s.
  unfold run, switchNetwork, rendered, try_catch, bind, provider, await, ret,
    throw_Error, setWalletState.
  destruct ethereum as [eth|]; [|cbn; repeat split].
  destruct Hfail as (e & Hswitch & H4902 & H4001). rewrite Hswitch. cbn.
  assert (Hmessage : match code e with
                     | Some 4902 => "This network is not added to MetaMask"
                     | Some 4001 => "Network switch rejected by user"
                     | _ => "Failed to switch network"
                     end = "Failed to switch network").
  { destruct (code e) as [c|]; [|reflexivity].
    destruct (Z.eq_dec c 4902) as [->|]; [contradiction|].
    destruct (Z.eq_dec c 4001) as [->|]; [contradiction|].
    repeat (match goal with
            | |- match ?x with _ => _ end = _ => destruct x; try reflexivity; try congruence
            | |- (if ?x then _ else _) = _ => destruct x; try reflexivity; try congruence
            end). }
  rewrite Hmessage. repeat split.
Qed.

Lemma switchNetwork_failed_witness :
  let prev := walletState connected_page in
  let w' := run (switchNetwork (Some failing) "0x89") connected_page in
  let s := walletState w' in
  error s = Some "Failed to switch network" /\
  address s = address prev /\
  isConnected s = isConnected prev /\
  isConnecting s = isConnecting prev /\
  chainId s = chainId prev /\
  balance s = balance prev /\
  localStorage w' = localStorage connected_page.
Proof.
  apply (switchNetwork_failed (Some failing) "0x89" connected_page).
  exists {| code := Some (-32603) |}.
  split; [reflexivity|]. split; discriminate.
Defined.

(** X3. A [switchNetwork] call that succeeds while the session holds no
    address (or an empty one) changes nothing at all: no refresh, and an
    earlier [error] stays. *)
Theorem switchNetwork_without_address eth chain w :
  wallet_switchEthereumChain eth chain = Resolved tt ->
  address (walletState w) = None \/ address (walletState w) = Some "" ->
  run (switchNetwork (Some eth) chain) w = w.
Proof.
  intros Hswitch Haddress.
  unfold run, switchNetwork, rendered, try_catch, bind, provider, await, ret.
  rewrite Hswitch. destruct Haddress as [-> | ->]; reflexivity.
Qed.

Lemma switchNetwork_without_address_witness :
  run (switchNetwork (Some granting) "0x89") stale_page = stale_page.
Proof.
  apply (switchNetwork_without_address granting "0x89" stale_page).
  - reflexivity.
  - left. reflexivity.
Defined.

(** X4. A [switchNetwork] call that succeeds on a session with an address
    refreshes it: when the chain-id query then succeeds and
    [localStorage] stores the flag (it holds it already, or has room),
    the session is connected with the same address, [chainId] is the
    identifier the provider reports (whatever was asked for),
    [isConnecting] and [error] are cleared, and the flag is stored. *)
Theorem switchNetwork_refreshes eth chain current addr w :
  wallet_switchEthereumChain eth chain = Resolved tt ->
  address (walletState w) = Some addr ->
  addr <> "" ->
  eth_chainId eth = Resolved current ->
  stores "walletConnected" "true" w = true ->
  let w' := run (switchNetwork (Some eth) chain) w in
  let s := walletState w' in
  address s = Some addr /\
  chainId s = Some current /\
  balance s = fetched (Some eth) addr /\
  isConnected s = true /\
  isConnecting s = false /\
  error s = None /\
  localStorage w' !! "walletConnected" = Some "true".
Proof.
  intros Hswitch Haddress Hne Hchain Hstores w' s. subst w' s.
  unfold run, switchNetwork, rendered, try_catch, bind, provider, await, ret.
  rewrite Hswitch, Haddress.
  assert (Htruthy : JsString.truthy addr = true)
    by (destruct addr; [contradiction|reflexivity]).
  rewrite Htruthy.
  rewrite (updateWalletState_resolved eth addr current w Hchain Hstores).
  cbn. repeat split. apply lookup_insert_eq.
Qed.

Lemma switchNetwork_refreshes_witness :
  let w' := run (switchNetwork (Some granting) "0x89") connected_page in
  let s := walletState w' in
  address s = Some example_account /\
  chainId s = Some "0x1" /\
  balance s = fetched (Some granting) example_account /\
  isConnected s = true /\
  isConnecting s = false /\
  error s = None /\
  localStorage w' !! "walletConnected" = Some "true".
Proof.
  apply (switchNetwork_refreshes granting "0x89" "0x1" example_account connected_page);
    try reflexivity.
  discriminate.
Defined.

(** X5. A [connect] call with MetaMask installed that finds no provider
    when it runs, or whose account request is rejected with a code other
    than 4001 (or with no code), leaves the session with [error = "Failed
    to connect wallet"], [isConnecting = false] and every other field as
    before; [localStorage] is untouched. *)
Theorem connect_failed installed ethereum w :
  installed = true ->
  match ethereum with
  | Some eth =>
      exists e, eth_requestAccounts eth = Rejected e /\ code e <> Some 4001
  | None => True
  end ->
  let prev := walletState w in
  let w' := run (connect installed ethereum) w in
  let s := walletState w' in
  error s = Some "Failed to connect wallet" /\
  isConnecting s = false /\
  address s = address prev /\
  isConnected s = isConnected prev /\
  chainId s = chainId prev /\
  balance s = balance prev /\
  localStorage w' = localStorage w.
Proof.
  intros -> Hfail prev w' s. subst prev w' s.
  destruct ethereum as [eth|].
  - destruct Hfail as (e & Haccounts & H4001).
    rewrite (connect_refused eth e w Haccounts). cbn.
    assert (Hmessage : match code e with
                       | Some 4001 => "Connection rejected by user"
                       | _ => "Failed to connect wallet"
                       end = "Failed to connect wallet").
    { destruct (code e) as [c|]; [|reflexivity].
      destruct (Z.eq_dec c 4001) as [->|]; [contradiction|].
      repeat (match goal with
              | |- match ?x with _ => _ end = _ =>
                  destruct x; try reflexivity; try congruence
              end). }
    rewrite Hmessage. repeat split.
  - cbn. repeat split.
Qed.

Lemma connect_failed_witness :
  let prev := walletState (mounted ∅) in
  let w' := run (connect true (Some locked)) (mounted ∅) in
  let s := walletState w' in
  error s = Some "Failed to connect wallet" /\
  isConnecting s = false /\
  address s = address prev /\
  isConnected s = isConnected prev /\
  chainId s = chainId prev /\
  balance s = balance prev /\
  localStorage w' = localStorage (mounted ∅).
Proof.
  apply (connect_failed true (Some locked) (mounted ∅)); [reflexivity|].
  exists {| code := Some (-32002) |}. split; [reflexivity|discriminate].
Defined.

(** X6. A [connect] call that is granted an account but whose chain-id
    query fails ends with the message of the refresh, not of [connect]:
    [error = "Failed to update wallet information"], [isConnecting =
    false]; the granted account is not stored, the session is not marked
    connected and the flag is not written. *)
Theorem connect_refresh_failed installed eth account0 others e w :
  installed = true ->
  eth_requestAccounts eth = Resolved (Some (account0 :: others)) ->
  eth_chainId eth = Rejected e ->
  let prev := walletState w in
  let w' := run (connect installed (Some eth)) w in
  let s := walletState w' in
  error s = Some "Failed to update wallet information" /\
  isConnecting s = false /\
  address s = address prev /\
  isConnected s = isConnected prev /\
  chainId s = chainId prev /\
  balance s = balance prev /\
  localStorage w' = localStorage w.
Proof.
  intros -> Haccounts Hchain prev w' s. subst prev w' s.
  unfold run, connect, try_catch, bind, provider, await, ret, setWalletState.
  cbn [negb]. rewrite Haccounts.
  rewrite (updateWalletState_failed (Some eth) account0 _) by (exists e; exact Hchain).
  cbn. repeat split.
Qed.

Lemma connect_refresh_failed_witness :
  let prev := walletState (mounted ∅) in
  let w' := run (connect true (Some chainless)) (mounted ∅) in
  let s := walletState w' in
  error s = Some "Failed to update wallet information" /\
  isConnecting s = false /\
  address s = address prev /\
  isConnected s = isConnected prev /\
  chainId s = chainId prev /\
  balance s = balance prev /\
  localStorage w' = localStorage (mounted ∅).
Proof.
  apply (connect_refresh_failed true chainless example_account []
           {| code := Some (-32603) |} (mounted ∅)); reflexivity.
Defined.

(** X7. A [connect] that is granted an account and told the chain also
    stores what the refresh read: the chain id the provider reports and
    the balance [getBalance] hands back ([null] when the balance query
    fails); other keys of [localStorage] are kept, and the flag
    ['walletConnected' = 'true'] is stored exactly when [localStorage]
    accepts it: when [setItem] throws the flag stays what it was. *)
Theorem connect_persists installed eth account0 others chain w :
  installed = true ->
  eth_requestAccounts eth = Resolved (Some (account0 :: others)) ->
  eth_chainId eth = Resolved chain ->
  let w' := run (connect installed (Some eth)) w in
  let s := walletState w' in
  chainId s = Some chain /\
  getBalance (Some eth) account0 w = (Normal (balance s), w) /\
  (balance s = None <-> exists e, eth_getBalance eth account0 = Rejected e) /\
  (stores "walletConnected" "true" w = true ->
   localStorage w' !! "walletConnected" = Some "true") /\
  (stores "walletConnected" "true" w = false ->
   localStorage w' !! "walletConnected" = localStorage w !! "walletConnected" /\
   localStorage w' !! "walletConnected" <> Some "true") /\
  (forall key, key <> "walletConnected" ->
               localStorage w' !! key = localStorage w !! key).
Proof.
  intros -> Haccounts Hchain w' s. subst w' s.
  assert (Hbalance : fetched (Some eth) account0 = None <->
                     exists e, eth_getBalance eth account0 = Rejected e).
  { unfold fetched. destruct (eth_getBalance eth account0) as [hex|e]; split.
    - discriminate.
    - intros [e He]. discriminate He.
    - intros _. exists e. reflexivity.
    - reflexivity. }
  rewrite getBalance_fetched.
  destruct (stores "walletConnected" "true" w) eqn:Hstores.
  - rewrite (connect_granted eth account0 others chain w Haccounts Hchain Hstores).
    cbn [walletState chainId balance localStorage].
    split; [reflexivity|]. split; [reflexivity|]. split; [exact Hbalance|].
    split; [intros _; apply lookup_insert_eq|].
    split; [intros H; discriminate H|].
    intros key Hkey. apply lookup_insert_ne. congruence.
  - rewrite (connect_granted_unstored eth account0 others chain w Haccounts Hchain
               Hstores).
    cbn [walletState chainId balance localStorage].
    split; [reflexivity|]. split; [reflexivity|]. split; [exact Hbalance|].
    split; [intros H; discriminate H|].
    split; [|intros key Hkey; reflexivity].
    intros _. split; [reflexivity|].
    unfold stores, holds in Hstores. apply orb_false_iff in Hstores as [Hholds _].
    intros Hflag. rewrite Hflag in Hholds. discriminate Hholds.
Qed.

Lemma connect_persists_witness :
  let w' := run (connect true (Some granting)) (mounted flagged) in
  let s := walletState w' in
  chainId s = Some "0x1" /\
  getBalance (Some granting) example_account (mounted flagged)
    = (Normal (balance s), mounted flagged) /\
  (balance s = None <-> exists e, eth_getBalance granting example_account = Rejected e) /\
  (stores "walletConnected" "true" (mounted flagged) = true ->
   localStorage w' !! "walletConnected" = Some "true") /\
  (stores "walletConnected" "true" (mounted flagged) = false ->
   localStorage w' !! "walletConnected"
     = localStorage (mounted flagged) !! "walletConnected" /\
   localStorage w' !! "walletConnected" <> Some "true") /\
  (forall key, key <> "walletConnected" ->
               localStorage w' !! key = localStorage (mounted flagged) !! key).
Proof.
  apply (connect_persists true granting example_account [] "0x1" (mounted flagged));
    reflexivity.
Defined.

(** X8. With MetaMask installed and a provider present, [connect] leaves
    [isConnecting = true] exactly when the account request succeeds with
    an empty (or [null]) list; every rejection and every non-empty list
    clears it. *)
Theorem connect_stays_connecting_iff installed eth w :
  installed = true ->
  isConnecting (walletState (run (connect installed (Some eth)) w)) = true <->
  eth_requestAccounts eth = Resolved (Some []) \/
  eth_requestAccounts eth = Resolved None.
Proof.
  intros ->.
  destruct (eth_requestAccounts eth) as [[[|account0 others]|]|e] eqn:Haccounts.
  - split; [intros _; left; reflexivity|intros _].
    unfold run, connect, try_catch, bind, provider, await, ret, setWalletState.
    cbn [negb]. rewrite Haccounts. reflexivity.
  - split; [|intros [H|H]; discriminate H].
    intros Hconnecting. exfalso. revert Hconnecting.
    destruct (updateWalletState_cases (Some eth))
      as [(eth' & chain & [= <-] & Hchain)|(e & Hchain)].
    + destruct (stores "walletConnected" "true" w) eqn:Hstores.
      * rewrite (connect_granted eth account0 others chain w Haccounts Hchain
                   Hstores).
        discriminate.
      * rewrite (connect_granted_unstored eth account0 others chain w Haccounts
                   Hchain Hstores).
        discriminate.
    + unfold run, connect, try_catch, bind, provider, await, ret, setWalletState.
      cbn [negb]. rewrite Haccounts.
      rewrite (updateWalletState_failed (Some eth) account0 _)
        by (exists e; exact Hchain).
      discriminate.
  - split; [intros _; right; reflexivity|intros _].
    unfold run, connect, try_catch, bind, provider, await, ret, setWalletState.
    cbn [negb]. rewrite Haccounts. reflexivity.
  - split; [|intros [H|H]; discriminate H].
    rewrite (connect_refused eth e w Haccounts). discriminate.
Qed.

Lemma connect_stays_connecting_iff_witness :
  isConnecting (walletState (run (connect true (Some empty_handed)) (mounted ∅))) = true <->
  eth_requestAccounts empty_handed = Resolved (Some []) \/
  eth_requestAccounts empty_handed = Resolved None.
Proof.
  apply (connect_stays_connecting_iff true empty_handed (mounted ∅)). reflexivity.
Defined.

End MoreOperations.

(* ===================================================================== *)
(** * The auto-reconnect effect and the account notification *)
(* ===================================================================== *)

Section Effects.

Import Async.

(** X9. The auto-reconnect effect does nothing, and asks the provider
    nothing, unless the stored flag is ['true'], MetaMask is installed
    and a provider is present: otherwise the page is left as it is. *)
Theorem autoConnect_inert installed ethereum w :
  localStorage w !! "walletConnected" <> Some "true" \/
  installed = false \/
  ethereum = None ->
  run (autoConnect installed ethereum) w = w.
Proof.
  intros Hinert. unfold run, autoConnect, getItem, bind, ret.
  destruct ethereum as [eth|]; [|reflexivity].
  destruct Hinert as [Hflag|[-> | Hnone]]; [| |discriminate Hnone].
  - destruct (localStorage w !! "walletConnected") as [v|] eqn:E; [|reflexivity].
    destruct (String.eqb_spec v "true") as [->|Hv]; [contradiction|reflexivity].
  - rewrite andb_false_r. reflexivity.
Qed.

Lemma autoConnect_inert_witness :
  run (autoConnect true (Some granting)) (mounted ∅) = mounted ∅.
Proof.
  apply (autoConnect_inert true (Some granting) (mounted ∅)).
  left. vm_compute. discriminate.
Defined.

(** X10. With the flag stored, MetaMask installed and at least one
    authorised account, the auto-reconnect effect connects the session to
    the first account when the chain-id query succeeds: [isConnected =
    true], [isConnecting = false], no [error], the chain id the provider
    reports; the flag stays ['true']. *)
Theorem autoConnect_restores installed eth account0 others chain w :
  localStorage w !! "walletConnected" = Some "true" ->
  installed = true ->
  eth_accounts eth = Resolved (Some (account0 :: others)) ->
  eth_chainId eth = Resolved chain ->
  let w' := run (autoConnect installed (Some eth)) w in
  let s := walletState w' in
  address s = Some account0 /\
  isConnected s = true /\
  isConnecting s = false /\
  error s = None /\
  chainId s = Some chain /\
  balance s = fetched (Some eth) account0 /\
  localStorage w' !! "walletConnected" = Some "true".
Proof.
  intros Hflag -> Haccounts Hchain w' s. subst w' s.
  unfold run, autoConnect, getItem, try_catch, bind, await, ret.
  rewrite Hflag, Haccounts. cbn [String.eqb Ascii.eqb Bool.eqb andb].
  assert (Hstores : stores "walletConnected" "true" w = true)
    by (unfold stores, holds; rewrite Hflag; reflexivity).
  rewrite (updateWalletState_resolved eth account0 chain w Hchain Hstores).
  cbn. repeat split. apply lookup_insert_eq.
Qed.

Lemma autoConnect_restores_witness :
  let w' := run (autoConnect true (Some granting)) (mounted flagged) in
  let s := walletState w' in
  address s = Some example_account /\
  isConnected s = true /\
  isConnecting s = false /\
  error s = None /\
  chainId s = Some "0x1" /\
  balance s = fetched (Some granting) example_account /\
  localStorage w' !! "walletConnected" = Some "true".
Proof.
  apply (autoConnect_restores true granting example_account [] "0x1" (mounted flagged));
    reflexivity.
Defined.

(** X11. When the passive account query answers with an empty (or [null])
    list, the auto-reconnect effect leaves the page as it is: the session
    is unchanged and the stored flag is kept. *)
Theorem autoConnect_no_accounts installed eth w :
  eth_accounts eth = Resolved (Some []) \/ eth_accounts eth = Resolved None ->
  run (autoConnect installed (Some eth)) w = w.
Proof.
  intros Haccounts. unfold run, autoConnect, getItem, try_catch, bind, await, ret.
  destruct (_ && installed); [|reflexivity].
  destruct Haccounts as [-> | ->]; reflexivity.
Qed.

Lemma autoConnect_no_accounts_witness :
  run (autoConnect true (Some empty_handed)) (mounted flagged) = mounted flagged.
Proof.
  apply (autoConnect_no_accounts true empty_handed (mounted flagged)).
  left. reflexivity.
Defined.

(** X12. When the flag is stored, MetaMask is installed and the passive
    account query fails, the auto-reconnect effect removes the flag from
    [localStorage] and nothing else: the session (its [error] too) and
    the other keys are as before. *)
Theorem autoConnect_query_failed installed eth e w :
  localStorage w !! "walletConnected" = Some "true" ->
  installed = true ->
  eth_accounts eth = Rejected e ->
  let w' := run (autoConnect installed (Some eth)) w in
  localStorage w' !! "walletConnected" = None /\
  (forall key, key <> "walletConnected" ->
               localStorage w' !! key = localStorage w !! key) /\
  walletState w' = walletState w /\
  history w' = history w.
Proof.
  intros Hflag -> Haccounts w'. subst w'.
  unfold run, autoConnect, getItem, try_catch, bind, await, ret, removeItem.
  rewrite Hflag, Haccounts. cbn.
  split; [apply lookup_delete_eq|].
  split; [|split; reflexivity].
  intros key Hkey. apply lookup_delete_ne. congruence.
Qed.

Lemma autoConnect_query_failed_witness :
  let w' := run (autoConnect true (Some locked)) (mounted flagged) in
  localStorage w' !! "walletConnected" = None /\
  (forall key, key <> "walletConnected" ->
               localStorage w' !! key = localStorage (mounted flagged) !! key) /\
  walletState w' = walletState (mounted flagged) /\
  history w' = history (mounted flagged).
Proof.
  apply (autoConnect_query_failed true locked {| code := Some (-32603) |}
           (mounted flagged)); reflexivity.
Defined.

(** X13. The auto-reconnect effect never shows the session as connecting:
    every value it writes to the state cell has [isConnecting = false]. *)
Theorem autoConnect_never_connecting installed ethereum w s :
  In s (held (run (autoConnect installed ethereum) w)) ->
  In s (held w) \/ isConnecting s = false.
Proof.
  unfold run, autoConnect, getItem, try_catch, bind, await, ret.
  destruct ethereum as [eth|]; [|intros H; left; exact H].
  destruct (_ && installed); [|intros H; left; exact H].
  destruct (eth_accounts eth) as [[[|account0 others]|]|e];
    try (intros H; left; exact H).
  destruct (updateWalletState_cases (Some eth))
    as [(eth' & chain & [= <-] & Hchain)|Hfail].
  - destruct (stores "walletConnected" "true" w) eqn:Hstores.
    + rewrite (updateWalletState_resolved eth account0 chain w Hchain Hstores).
      cbn. intros [<-|H]; [right; reflexivity|left; exact H].
    + rewrite (updateWalletState_refused eth account0 chain w Hchain Hstores).
      cbn. intros [<-|[<-|H]]; [right; reflexivity|right; reflexivity|left; exact H].
  - rewrite (updateWalletState_failed (Some eth) account0 w Hfail).
    cbn. intros [<-|H]; [right; reflexivity|left; exact H].
Qed.

Lemma autoConnect_never_connecting_witness :
  In (walletState (run (autoConnect true (Some granting)) stale_page)) (held stale_page) \/
  isConnecting (walletState (run (autoConnect true (Some granting)) stale_page)) = false.
Proof.
  apply (autoConnect_never_connecting true (Some granting) stale_page).
  left. reflexivity.
Defined.

(** X14. An ['accountsChanged'] notification with an empty list
    disconnects: the session is all absent or false and the flag is
    removed from [localStorage], whatever the session was. *)
Theorem handleAccountsChanged_empty ethereum w :
  let w' := run (handleAccountsChanged ethereum []) w in
  walletState w' = initialWalletState /\
  localStorage w' !! "walletConnected" = None /\
  w' = run disconnect w.
Proof.
  cbn. split; [reflexivity|]. split; [apply lookup_delete_eq|reflexivity].
Qed.

(** X15. An ['accountsChanged'] notification whose first account is the
    address the session holds changes nothing: no refresh is made. *)
Theorem handleAccountsChanged_same ethereum account0 others w :
  address (walletState w) = Some account0 ->
  run (handleAccountsChanged ethereum (account0 :: others)) w = w.
Proof.
  intros Haddress. unfold run, handleAccountsChanged, rendered, bind, ret.
  rewrite Haddress, String.eqb_refl. reflexivity.
Qed.

Lemma handleAccountsChanged_same_witness :
  run (handleAccountsChanged (Some failing) [example_account; other_account])
    connected_page = connected_page.
Proof.
  apply (handleAccountsChanged_same (Some failing) example_account [other_account]
           connected_page).
  reflexivity.
Defined.

(** X16. An ['accountsChanged'] notification whose first account is not
    the address the session holds refreshes the session for that account:
    when the chain-id query succeeds and [localStorage] stores the flag
    (it holds it already, or has room), the session is connected with the
    new account, without [error], and the flag is stored. *)
Theorem handleAccountsChanged_switches eth account0 others chain w :
  address (walletState w) <> Some account0 ->
  eth_chainId eth = Resolved chain ->
  stores "walletConnected" "true" w = true ->
  let w' := run (handleAccountsChanged (Some eth) (account0 :: others)) w in
  let s := walletState w' in
  address s = Some account0 /\
  isConnected s = true /\
  isConnecting s = false /\
  error s = None /\
  chainId s = Some chain /\
  balance s = fetched (Some eth) account0 /\
  localStorage w' !! "walletConnected" = Some "true".
Proof.
  intros Haddress Hchain Hstores w' s. subst w' s.
  unfold run, handleAccountsChanged, rendered, bind, ret.
  assert (Hsame : match address (walletState w) with
                  | Some a => String.eqb account0 a
                  | None => false
                  end = false).
  { destruct (address (walletState w)) as [a|]; [|reflexivity].
    destruct (String.eqb_spec account0 a) as [->|]; [contradiction|reflexivity]. }
  rewrite Hsame. cbn [negb].
  rewrite (updateWalletState_resolved eth account0 chain w Hchain Hstores).
  cbn. repeat split. apply lookup_insert_eq.
Qed.

Lemma handleAccountsChanged_switches_witness :
  let w' := run (handleAccountsChanged (Some granting) [other_account]) connected_page in
  let s := walletState w' in
  address s = Some other_account /\
  isConnected s = true /\
  isConnecting s = false /\
  error s = None /\
  chainId s = Some "0x1" /\
  balance s = fetched (Some granting) other_account /\
  localStorage w' !! "walletConnected" = Some "true".
Proof.
  apply (handleAccountsChanged_switches granting other_account [] "0x1" connected_page);
    [|reflexivity|reflexivity].
  vm_compute. discriminate.
Defined.

(** X17. When the account changes and the chain-id query of the refresh
    fails, the session keeps the previous account, chain id, balance and
    [isConnected] and only gains [error = "Failed to update wallet
    information"]: a connected session goes on showing the old account. *)
Theorem handleAccountsChanged_switch_failed eth account0 others e w :
  address (walletState w) <> Some account0 ->
  eth_chainId eth = Rejected e ->
  let prev := walletState w in
  let w' := run (handleAccountsChanged (Some eth) (account0 :: others)) w in
  let s := walletState w' in
  address s = address prev /\
  isConnected s = isConnected prev /\
  chainId s = chainId prev /\
  balance s = balance prev /\
  isConnecting s = false /\
  error s = Some "Failed to update wallet information" /\
  localStorage w' = localStorage w.
Proof.
  intros Haddress Hchain prev w' s. subst prev w' s.
  unfold run, handleAccountsChanged, rendered, bind, ret.
  assert (Hsame : match address (walletState w) with
                  | Some a => String.eqb account0 a
                  | None => false
                  end = false).
  { destruct (address (walletState w)) as [a|]; [|reflexivity].
    destruct (String.eqb_spec account0 a) as [->|]; [contradiction|reflexivity]. }
  rewrite Hsame. cbn [negb].
  rewrite (updateWalletState_failed (Some eth) account0 w) by (exists e; exact Hchain).
  cbn. repeat split.
Qed.

Lemma handleAccountsChanged_switch_failed_witness :
  let prev := walletState connected_page in
  let w' := run (handleAccountsChanged (Some failing) [other_account]) connected_page in
  let s := walletState w' in
  address s = address prev /\
  isConnected s = isConnected prev /\
  chainId s = chainId prev /\
  balance s = balance prev /\
  isConnecting s = false /\
  error s = Some "Failed to update wallet information" /\
  localStorage w' = localStorage connected_page.
Proof.
  apply (handleAccountsChanged_switch_failed failing other_account []
           {| code := Some (-32603) |} connected_page); [|reflexivity].
  vm_compute. discriminate.
Defined.

End Effects.

(* ===================================================================== *)
(** * What every call keeps *)
(* ===================================================================== *)

Section EveryCall.

Import Async.

(** A refresh completes normally. *)
Lemma updateWalletState_normal ethereum addr w :
  fst (updateWalletState ethereum addr w) = Normal tt.
Proof.
  destruct (updateWalletState_cases ethereum) as [(eth & chain & -> & Hchain)|Hfail].
  - destruct (stores "walletConnected" "true" w) eqn:Hstores.
    + rewrite (updateWalletState_resolved eth addr chain w Hchain Hstores). reflexivity.
    + rewrite (updateWalletState_refused eth addr chain w Hchain Hstores). reflexivity.
  - rewrite (updateWalletState_failed ethereum addr w Hfail). reflexivity.
Qed.

(** The flag after a refresh is the old one or ['true']; other keys are
    kept. *)
Lemma updateWalletState_storage ethereum addr w :
  let w' := snd (updateWalletState ethereum addr w) in
  (localStorage w' = localStorage w \/
   localStorage w' = <["walletConnected" := "true"]> (localStorage w)).
Proof.
  destruct (updateWalletState_cases ethereum) as [(eth & chain & -> & Hchain)|Hfail].
  - destruct (stores "walletConnected" "true" w) eqn:Hstores.
    + rewrite (updateWalletState_resolved eth addr chain w Hchain Hstores).
      right. reflexivity.
    + rewrite (updateWalletState_refused eth addr chain w Hchain Hstores).
      left. reflexivity.
  - rewrite (updateWalletState_failed ethereum addr w Hfail). left. reflexivity.
Qed.

(** X18. The refresh [updateWalletState] never throws: an absent
    provider, a rejected chain-id or balance query and a throwing
    [localStorage.setItem] all end inside it.  When the chain-id query
    succeeds but [setItem] throws, the session just written stays
    (connected, with the address, chain id and balance read) and only
    gains [error = "Failed to update wallet information"]; the flag is
    not stored. *)
Theorem updateWalletState_contains_failures ethereum addr w :
  fst (updateWalletState ethereum addr w) = Normal tt /\
  (forall eth chain,
      ethereum = Some eth ->
      eth_chainId eth = Resolved chain ->
      stores "walletConnected" "true" w = false ->
      let w' := run (updateWalletState ethereum addr) w in
      let s := walletState w' in
      address s = Some addr /\
      isConnected s = true /\
      isConnecting s = false /\
      chainId s = Some chain /\
      balance s = fetched ethereum addr /\
      error s = Some "Failed to update wallet information" /\
      localStorage w' = localStorage w).
Proof.
  split; [apply updateWalletState_normal|].
  intros eth chain -> Hchain Hstores w' s. subst w' s. unfold run.
  rewrite (updateWalletState_refused eth addr chain w Hchain Hstores).
  cbn. repeat split.
Qed.

Lemma updateWalletState_contains_failures_witness :
  let w' := run (updateWalletState (Some granting) example_account) full_page in
  let s := walletState w' in
  address s = Some example_account /\
  isConnected s = true /\
  isConnecting s = false /\
  chainId s = Some "0x1" /\
  balance s = fetched (Some granting) example_account /\
  error s = Some "Failed to update wallet information" /\
  localStorage w' = localStorage full_page.
Proof.
  apply (proj2 (updateWalletState_contains_failures (Some granting) example_account
                  full_page) granting "0x1"); reflexivity.
Defined.

(** X20. The only key of [localStorage] a call ever touches is
    ['walletConnected']: every other key keeps its value, and the flag
    afterwards is what it was, ['true'], or absent. *)
Theorem perform_storage c installed ethereum w :
  let w' := run (perform c installed ethereum) w in
  (forall key, key <> "walletConnected" ->
               localStorage w' !! key = localStorage w !! key) /\
  (localStorage w' !! "walletConnected" = localStorage w !! "walletConnected" \/
   localStorage w' !! "walletConnected" = Some "true" \/
   localStorage w' !! "walletConnected" = None).
Proof.
  intros w'.
  assert (Hcases : localStorage w' = localStorage w \/
                   localStorage w' = <["walletConnected" := "true"]> (localStorage w) \/
                   localStorage w' = delete "walletConnected" (localStorage w)).
  { subst w'. unfold run. destruct c; cbn [perform].
    - unfold connect, try_catch, bind, provider, await, ret, throw_Error, setWalletState.
      destruct installed; cbn [negb]; [|left; reflexivity].
      destruct ethereum as [eth|]; [|left; reflexivity].
      destruct (eth_requestAccounts eth) as [[[|account0 others]|]|e];
        try (left; reflexivity).
      match goal with
      | |- context [updateWalletState ?p ?a ?w0] =>
          pose proof (updateWalletState_storage p a w0) as Hup;
          pose proof (updateWalletState_normal p a w0) as Hnormal;
          destruct (updateWalletState p a w0) as [[[]|e] w2];
          [|discriminate Hnormal]
      end.
      cbn in Hup |- *. destruct Hup as [->| ->]; [left|right; left]; reflexivity.
    - right. right. reflexivity.
    - unfold switchNetwork, rendered, try_catch, bind, provider, await, ret,
        throw_Error, setWalletState.
      destruct ethereum as [eth|]; [|left; reflexivity].
      destruct (wallet_switchEthereumChain eth chain) as [[]|e]; [|left; reflexivity].
      destruct (address (walletState w)) as [addr|]; [|left; reflexivity].
      destruct (JsString.truthy addr); [|left; reflexivity].
      pose proof (updateWalletState_storage (Some eth) addr w) as Hup.
      pose proof (updateWalletState_normal (Some eth) addr w) as Hnormal.
      destruct (updateWalletState (Some eth) addr w) as [[[]|e] w2];
        [|discriminate Hnormal].
      cbn in Hup |- *. destruct Hup as [->| ->]; [left|right; left]; reflexivity.
    - unfold autoConnect, getItem, try_catch, bind, await, ret, removeItem.
      destruct ethereum as [eth|]; [|left; reflexivity].
      destruct (_ && installed); [|left; reflexivity].
      destruct (eth_accounts eth) as [[[|account0 others]|]|e];
        try (left; reflexivity); [|right; right; reflexivity].
      pose proof (updateWalletState_storage (Some eth) account0 w) as Hup.
      pose proof (updateWalletState_normal (Some eth) account0 w) as Hnormal.
      destruct (updateWalletState (Some eth) account0 w) as [[[]|e] w2];
        [|discriminate Hnormal].
      cbn in Hup |- *. destruct Hup as [->| ->]; [left|right; left]; reflexivity.
    - unfold handleAccountsChanged, rendered, bind, ret.
      destruct accountArray as [|account0 others]; [right; right; reflexivity|].
      destruct (negb _); [|left; reflexivity].
      pose proof (updateWalletState_storage ethereum account0 w) as Hup.
      cbn in Hup. destruct Hup as [->| ->]; [left|right; left]; reflexivity.
    - left. reflexivity. }
  destruct Hcases as [->|[->| ->]].
  - split; [reflexivity|left; reflexivity].
  - split; [|right; left; apply lookup_insert_eq].
    intros key Hkey. apply lookup_insert_ne. congruence.
  - split; [|right; right; apply lookup_delete_eq].
    intros key Hkey. apply lookup_delete_ne. congruence.
Qed.

End EveryCall.

(* ===================================================================== *)
(** * Address, connection and chain go together *)
(* ===================================================================== *)

Section Consistent.

Import Async.

#[local] Ltac fields :=
  unfold consistent in *; cbn; intuition (try congruence; try discriminate).

Lemma updateWalletState_consistent ethereum addr w :
  Forall consistent (held w) ->
  Forall consistent (held (run (updateWalletState ethereum addr) w)).
Proof.
  intros Hheld. unfold run.
  assert (Hcur : consistent (walletState w)) by (inversion Hheld; assumption).
  destruct (updateWalletState_cases ethereum) as [(eth & chain & -> & Hchain)|Hfail].
  - destruct (stores "walletConnected" "true" w) eqn:Hstores.
    + rewrite (updateWalletState_resolved eth addr chain w Hchain Hstores).
      constructor; [fields | exact Hheld].
    + rewrite (updateWalletState_refused eth addr chain w Hchain Hstores).
      do 2 (constructor; [fields|]). exact Hheld.
  - rewrite (updateWalletState_failed ethereum addr w Hfail).
    constructor; [fields | exact Hheld].
Qed.

Lemma perform_consistent c installed ethereum w :
  Forall consistent (held w) ->
  Forall consistent (held (run (perform c installed ethereum) w)).
Proof.
  intros Hheld.
  assert (Hcur : consistent (walletState w)) by (inversion Hheld; assumption).
  destruct c; cbn [perform].
  - unfold run, connect, try_catch, bind, provider, await, ret, throw_Error,
      setWalletState.
    destruct installed; cbn [negb].
    + destruct ethereum as [eth|].
      * destruct (eth_requestAccounts eth) as [[[|account0 others]|]|e].
        -- cbn. constructor; [fields | exact Hheld].
        -- match goal with
           | |- context [updateWalletState ?p ?a ?w0] =>
               assert (Hw1 : Forall consistent (held w0))
                 by (constructor; [fields | exact Hheld]);
               pose proof (updateWalletState_consistent p a w0 Hw1) as Hup;
               unfold run in Hup;
               destruct (updateWalletState p a w0) as [[[]|e] w2]
           end; cbn in Hup |- *.
           ++ exact Hup.
           ++ constructor; [|exact Hup].
              inversion Hup as [|? ? Hcur2 _]; subst. fields.
        -- cbn. constructor; [fields | exact Hheld].
        -- cbn. do 2 (constructor; [fields|]). exact Hheld.
      * cbn. do 2 (constructor; [fields|]). exact Hheld.
    + cbn. constructor; [fields | exact Hheld].
  - cbn. constructor; [fields | exact Hheld].
  - unfold run, switchNetwork, rendered, try_catch, bind, provider, await, ret,
      throw_Error.
    destruct ethereum as [eth|].
    + destruct (wallet_switchEthereumChain eth chain) as [[]|e].
      * destruct (address (walletState w)) as [addr|] eqn:Eaddr; [|exact Hheld].
        destruct (JsString.truthy addr); [|exact Hheld].
        pose proof (updateWalletState_consistent (Some eth) addr w Hheld) as Hup.
        unfold run in Hup.
        destruct (updateWalletState (Some eth) addr w) as [[[]|e] w2];
          cbn in Hup |- *.
        -- exact Hup.
        -- constructor; [|exact Hup].
           inversion Hup as [|? ? Hcur2 _]; subst. fields.
      * cbn. constructor; [fields | exact Hheld].
    + cbn. constructor; [fields | exact Hheld].
  - unfold run, autoConnect, getItem, try_catch, bind, await, ret.
    destruct ethereum as [eth|]; [|exact Hheld].
    destruct (_ && installed); [|exact Hheld].
    destruct (eth_accounts eth) as [[[|account0 others]|]|e]; try exact Hheld.
    pose proof (updateWalletState_consistent (Some eth) account0 w Hheld) as Hup.
    unfold run in Hup.
    destruct (updateWalletState (Some eth) account0 w) as [[[]|e] w2];
      cbn in Hup |- *; exact Hup.
  - destruct accountArray as [|account0 others].
    + cbn. constructor; [fields | exact Hheld].
    + unfold run, handleAccountsChanged, rendered, bind, ret.
      destruct (negb _); [|exact Hheld].
      apply updateWalletState_consistent. exact Hheld.
  - cbn. constructor; [fields | exact Hheld].
Qed.

(** X19. Over every sequence of calls, effect runs and notifications
    (guarded or not), every value the state cell holds is consistent:
    [isConnected] is true exactly when an address is held, a chain id is
    held exactly then too, and a balance is held only with an address. *)
Theorem consistent_always guard w :
  reachable guard w -> Forall consistent (held w).
Proof.
  induction 1 as [storage|w full Hreach IH|w c installed ethereum Hreach IH Hpermitted].
  - constructor; [fields | constructor].
  - exact IH.
  - apply perform_consistent. exact IH.
Qed.

Lemma consistent_always_witness : Forall consistent (held busy_page).
Proof.
  apply (consistent_always false busy_page).
  unfold busy_page.
  apply (reachable_call false _ (NotifyAccountsChanged [other_account]) true
           (Some failing)); [|reflexivity].
  apply (reachable_call false _ RunAutoConnect true (Some granting)); [|reflexivity].
  apply (reachable_call false _ NotifyChainChanged true (Some granting)); [|reflexivity].
  apply (reachable_call false _ (CallSwitchNetwork "0x89") true (Some declining));
    [|reflexivity].
  apply (reachable_call false _ CallConnect true (Some granting)); [|reflexivity].
  apply (reachable_call false _ CallConnect true (Some declining)); [|reflexivity].
  apply reachable_mounted.
Defined.

End Consistent.

(* ===================================================================== *)
(** * Reloads: what the stored flag brings back *)
(* ===================================================================== *)

Section Reload.

Import Async.

(** X21. The stored flag carries a session over a reload.  After a
    [connect] that is granted an account, told the chain and whose flag
    [localStorage] stores, a reload resets the session, and the
    auto-reconnect effect then restores it when the wallet still
    authorises the same first account and reports the same chain:
    address, chain id, flags and [error] are those the [connect] left,
    [balance] is what the balance query answers after the reload (the
    same session exactly when that answer is the same), and
    [localStorage] is what the [connect] left. *)
Theorem reload_reconnects installed before after account0 others others' chain w :
  installed = true ->
  eth_requestAccounts before = Resolved (Some (account0 :: others)) ->
  eth_chainId before = Resolved chain ->
  stores "walletConnected" "true" w = true ->
  eth_accounts after = Resolved (Some (account0 :: others')) ->
  eth_chainId after = Resolved chain ->
  let connected := run (connect installed (Some before)) w in
  let reloaded := run handleChainChanged connected in
  let restored := run (autoConnect installed (Some after)) reloaded in
  walletState reloaded = initialWalletState /\
  address (walletState restored) = address (walletState connected) /\
  chainId (walletState restored) = chainId (walletState connected) /\
  isConnected (walletState restored) = isConnected (walletState connected) /\
  isConnecting (walletState restored) = isConnecting (walletState connected) /\
  error (walletState restored) = error (walletState connected) /\
  balance (walletState restored) = fetched (Some after) account0 /\
  (fetched (Some after) account0 = fetched (Some before) account0 ->
   walletState restored = walletState connected) /\
  localStorage restored = localStorage connected.
Proof.
  intros -> Hrequest Hchain Hstores Haccounts Hchain' connected reloaded restored.
  subst restored reloaded connected.
  rewrite (connect_granted before account0 others chain w Hrequest Hchain Hstores).
  split; [reflexivity|].
  unfold run at 1 3 5 7 9 11 13 15. unfold autoConnect, getItem, try_catch, bind, await, ret.
  cbn [run handleChainChanged setWalletState snd localStorage walletState history
       storageFull].
  rewrite lookup_insert_eq, Haccounts.
  cbn [String.eqb Ascii.eqb Bool.eqb andb].
  rewrite (updateWalletState_resolved after account0 chain _ Hchain')
    by (unfold stores, holds; cbn [localStorage]; rewrite lookup_insert_eq; reflexivity).
  cbn. repeat split.
  - intros ->. reflexivity.
  - apply insert_insert_eq.
Qed.

Lemma reload_reconnects_witness :
  let connected := run (connect true (Some granting)) (mounted ∅) in
  let reloaded := run handleChainChanged connected in
  let restored := run (autoConnect true (Some granting_later)) reloaded in
  walletState reloaded = initialWalletState /\
  address (walletState restored) = address (walletState connected) /\
  chainId (walletState restored) = chainId (walletState connected) /\
  isConnected (walletState restored) = isConnected (walletState connected) /\
  isConnecting (walletState restored) = isConnecting (walletState connected) /\
  error (walletState restored) = error (walletState connected) /\
  balance (walletState restored) = fetched (Some granting_later) example_account /\
  (fetched (Some granting_later) example_account
     = fetched (Some granting) example_account ->
   walletState restored = walletState connected) /\
  localStorage restored = localStorage connected.
Proof.
  apply (reload_reconnects true granting granting_later example_account [] []
           "0x1" (mounted ∅));
    reflexivity.
Defined.

(** X22. [disconnect] is final across reloads: after it, a reload and the
    auto-reconnect effect leave the session disconnected and the flag
    absent, whatever the wallet would answer (it is not asked). *)
Theorem disconnect_survives_reload installed ethereum w :
  let disconnected := run disconnect w in
  let reloaded := run handleChainChanged disconnected in
  let restored := run (autoConnect installed ethereum) reloaded in
  walletState restored = initialWalletState /\
  localStorage restored !! "walletConnected" = None /\
  localStorage restored = localStorage disconnected /\
  history restored = history reloaded.
Proof.
  intros disconnected reloaded restored.
  assert (Hsame : restored = reloaded).
  { subst restored reloaded disconnected.
    unfold run at 1. unfold autoConnect, getItem, bind, ret.
    cbn [run disconnect handleChainChanged setWalletState removeItem bind snd
         localStorage walletState history].
    rewrite lookup_delete_eq. cbn [andb].
    destruct ethereum; reflexivity. }
  rewrite Hsame. subst reloaded disconnected. cbn.
  split; [reflexivity|]. split; [apply lookup_delete_eq|]. split; reflexivity.
Qed.

End Reload.

(* ===================================================================== *)
(** * [getBalance] is silent *)
(* ===================================================================== *)

Section Silent.

Import Async.

(** X28. [getBalance] never throws and never touches the session or
    [localStorage]; it hands back [null] exactly when there is no
    provider or the balance query is rejected. *)
Theorem getBalance_silent ethereum addr w :
  exists result,
    getBalance ethereum addr w = (Normal result, w) /\
    (result = None <->
     ethereum = None \/
     exists eth e, ethereum = Some eth /\ eth_getBalance eth addr = Rejected e).
Proof.
  exists (fetched ethereum addr). split; [apply getBalance_fetched|].
  unfold fetched. destruct ethereum as [eth|].
  - destruct (eth_getBalance eth addr) as [hex|e] eqn:E; split.
    + discriminate.
    + intros [H|(eth' & e & [= <-] & He)]; [discriminate H|].
      rewrite E in He. discriminate He.
    + intros _. right. exists eth, e. split; [reflexivity|exact E].
    + reflexivity.
  - split; [intros _; left|]; reflexivity.
Qed.

End Silent.

(* ===================================================================== *)
(** * [formatAddress]: length and idempotence *)
(* ===================================================================== *)

Section Shortening.

Lemma take_app_length s t : JsString.take (String.length s) (s +:+ t) = s.
Proof.
  induction s as [|c s IH]; [destruct t; reflexivity|].
  rewrite app_cons. cbn. rewrite IH. reflexivity.
Qed.

Lemma drop_app_length s t n :
  JsString.drop (String.length s + n) (s +:+ t) = JsString.drop n t.
Proof.
  induction s as [|c s IH]; [reflexivity|].
  rewrite app_cons. cbn. exact IH.
Qed.

(** The shortened form of a string of more than 10 code units. *)
Lemma formatAddress_long addr :
  (10 < String.length addr)%nat ->
  formatAddress addr =
    JsString.take 6 addr +:+ "..." +:+ JsString.drop (String.length addr - 4) addr.
Proof.
  intros Hlen. unfold formatAddress.
  destruct (Z.leb_spec (JsString.length addr) 10) as [Hle|_].
  { unfold JsString.length in Hle. lia. }
  rewrite substring_prefix by (unfold JsString.length; lia).
  rewrite substring_suffix by (unfold JsString.length; lia).
  f_equal. f_equal. f_equal. unfold JsString.length. lia.
Qed.

(** X23. The result of [formatAddress] has the length of the input when
    that is at most 10, and 13 code units otherwise: an input of 11 or 12
    code units comes out longer than it went in. *)
Theorem formatAddress_length addr :
  String.length (formatAddress addr) =
    if (String.length addr <=? 10)%nat then String.length addr else 13%nat.
Proof.
  destruct (Nat.leb_spec (String.length addr) 10) as [Hle|Hgt].
  - unfold formatAddress.
    destruct (Z.leb_spec (JsString.length addr) 10) as [_|H]; [reflexivity|].
    unfold JsString.length in H. lia.
  - rewrite formatAddress_long by exact Hgt.
    rewrite !length_app, length_take, length_drop by lia. cbn. lia.
Qed.

(** X24. [formatAddress] is idempotent: shortening a shortened address
    gives it back. *)
Theorem formatAddress_idempotent addr :
  formatAddress (formatAddress addr) = formatAddress addr.
Proof.
  destruct (Nat.leb_spec (String.length addr) 10) as [Hle|Hgt].
  - assert (Hsame : formatAddress addr = addr).
    { unfold formatAddress.
      destruct (Z.leb_spec (JsString.length addr) 10) as [_|H]; [reflexivity|].
      unfold JsString.length in H. lia. }
    rewrite !Hsame. reflexivity.
  - pose proof (formatAddress_length addr) as Hlength.
    destruct (Nat.leb_spec (String.length addr) 10) as [Hle|_]; [lia|].
    rewrite (formatAddress_long (formatAddress addr)) by lia.
    rewrite Hlength. cbn [Nat.sub].
    rewrite (formatAddress_long addr Hgt).
    set (first := JsString.take 6 addr).
    set (last := JsString.drop (String.length addr - 4) addr).
    assert (Hfirst : String.length first = 6%nat) by (apply length_take; lia).
    f_equal.
    + rewrite <- Hfirst. apply take_app_length.
    + f_equal.
      replace 9%nat with (String.length first + 3)%nat by lia.
      rewrite drop_app_length. reflexivity.
Qed.

End Shortening.

(* ===================================================================== *)
(** * [getChainName] *)
(* ===================================================================== *)

Section ChainNames.

(** X25. For an identifier that starts with ["0x"], [getChainName] hands
    back a string that is not empty: the name [chainIdMap] holds for it,
    and ["Chain "] followed by the identifier when it holds none. *)
Theorem getChainName_hex rest :
  let id := "0x" +:+ rest in
  (exists name,
      chainIdMap !! id = Some name /\ getChainName id = Name name /\ name <> "") \/
  (chainIdMap !! id = None /\ getChainName id = Name ("Chain " +:+ id)).
Proof.
  intros id. unfold getChainName.
  assert (Hinherited : inherited id = false) by reflexivity.
  rewrite Hinherited.
  destruct (chainIdMap !! id) as [name|] eqn:Elookup; [left|right; split; reflexivity].
  exists name.
  assert (Hname : JsString.truthy name = true).
  { unfold chainIdMap in Elookup.
    repeat (apply lookup_insert_Some in Elookup as [[_ <-]|[_ Elookup]];
            [reflexivity|]).
    rewrite lookup_empty in Elookup. discriminate Elookup. }
  rewrite Hname. split; [reflexivity|]. split; [reflexivity|].
  intros ->. discriminate Hname.
Qed.

(** X26. Every network of [commonNetworks] is known to [getChainName]
    under the very name the list gives it. *)
Theorem getChainName_commonNetworks :
  Forall (fun network => getChainName (net_id network) = Name (net_name network))
    commonNetworks.
Proof. repeat constructor. Qed.

(** X27. For an identifier that names a member of [Object.prototype]
    (["toString"], ["constructor"], ...) the lookup in [chainIdMap] finds
    the inherited member, and [getChainName] hands that back instead of a
    string. *)
Theorem getChainName_inherited key :
  In key Object_prototype -> getChainName key = Member key.
Proof.
  intros Hkey. unfold Object_prototype in Hkey. cbn [In] in Hkey.
  repeat (destruct Hkey as [<-|Hkey]; [vm_compute; reflexivity|]).
  contradiction.
Qed.

Lemma getChainName_inherited_witness : getChainName "toString" = Member "toString".
Proof.
  apply (getChainName_inherited "toString"). vm_compute. tauto.
Defined.

End ChainNames.
